(** * server.js: the retrying request helper and the mock endpoints

    A shallow embedding of [src/server.js].  JavaScript values, thrown
    errors and the effects of the program (console output, outbound
    requests through axios, timers, the clock and the random source) are
    modelled explicitly; [makeRequest] and the two route handlers are
    written in a small state-and-exception monad so that they read like the
    source. *)

From Stdlib Require Import ZArith List String Ascii Bool Lia QArith Qround.
From Stdlib Require Import DecimalString Sorted.
From Equations Require Import Equations.
Import ListNotations.

Set Warnings "-register-all".

Local Open Scope string_scope.
Local Open Scope Z_scope.

(** ** JavaScript data *)

Module Js.

(** An [Error] object: its [name], its [message] and (ES2022) its optional
    [cause], the error it wraps. *)
Inductive Error : Type :=
  MkError (name message : string) (cause : option Error).

Definition name (e : Error) : string :=
  match e with MkError n _ _ => n end.
Definition message (e : Error) : string :=
  match e with MkError _ m _ => m end.
Definition cause (e : Error) : option Error :=
  match e with MkError _ _ c => c end.

(** The values the program handles: response payloads, parsed query
    parameters (strings, arrays and nested objects), console arguments. *)
Inductive Value : Type :=
| Undefined
| Null
| Bool (b : bool)
| Num (n : Z)
| Str (s : string)
| Arr (items : list Value)
| Obj (fields : list (string * Value))
| ErrorObject (e : Error).

(** [`${n}`] for an integer number. *)
Definition showZ (n : Z) : string := NilZero.string_of_int (Z.to_int n).

(** [obj[key]] on the own properties of a plain object. *)
Fixpoint lookup (fields : list (string * Value)) (key : string) : Value :=
  match fields with
  | [] => Undefined
  | (k, v) :: rest => if String.eqb k key then v else lookup rest key
  end.

(** A destructuring default, [{ key = dflt } = obj]: it applies exactly
    when the property is [undefined]. *)
Definition orDefault (v dflt : Value) : Value :=
  match v with Undefined => dflt | _ => v end.

(** ToBoolean. *)
Definition truthy (v : Value) : bool :=
  match v with
  | Undefined | Null => false
  | Bool b => b
  | Num n => negb (n =? 0)
  | Str s => negb (String.eqb s EmptyString)
  | Arr _ | Obj _ | ErrorObject _ => true
  end.

(** [v === 'literal']. *)
Definition strictEqStr (v : Value) (lit : string) : bool :=
  match v with Str s => String.eqb s lit | _ => false end.

(** Whether an object has an own property [key]. *)
Definition hasOwn (fields : list (string * Value)) (key : string) : bool :=
  existsb (fun kv => String.eqb (fst kv) key) fields.

(** What ToString throws for an object it cannot convert. *)
Definition cannotConvert : Error :=
  MkError "TypeError" "Cannot convert object to primitive value" None.

(** ToString; [None] when it throws [cannotConvert].  A plain object gives
    the string of [Object.prototype.toString], unless it has an own
    property [toString]: the values of a parsed query are never functions,
    so that neither it nor [valueOf] yields a primitive, and the conversion
    throws.  An array joins its elements with commas, [null] and
    [undefined] elements giving the empty string, and throws when the
    conversion of an element does. *)
Fixpoint toString (v : Value) : option string :=
  match v with
  | Undefined => Some "undefined"
  | Null => Some "null"
  | Bool true => Some "true"
  | Bool false => Some "false"
  | Num n => Some (showZ n)
  | Str s => Some s
  | Arr items =>
      (fix join (l : list Value) : option string :=
         match l with
         | [] => Some EmptyString
         | x :: rest =>
             match match x with
                   | Undefined | Null => Some EmptyString
                   | _ => toString x
                   end with
             | None => None
             | Some sx =>
                 match rest with
                 | [] => Some sx
                 | _ :: _ =>
                     match join rest with
                     | None => None
                     | Some sr => Some (sx ++ "," ++ sr)
                     end
                 end
             end
         end) items
  | Obj fields =>
      if hasOwn fields "toString" then None else Some "[object Object]"
  | ErrorObject e =>
      Some (if String.eqb (name e) EmptyString then message e
            else if String.eqb (message e) EmptyString then name e
            else name e ++ ": " ++ message e)
  end.

(** *** Strings

    Strings are sequences of bytes, the UTF-8 form of the JavaScript
    string. *)

Definition code (c : ascii) : Z := Z.of_nat (nat_of_ascii c).

Definition isDigit (c : ascii) : bool := (48 <=? code c) && (code c <=? 57).

(** [s.replace(/[^\d]/g, '')]. *)
Fixpoint stripNonDigits (s : string) : string :=
  match s with
  | EmptyString => EmptyString
  | String c rest =>
      if isDigit c then String c (stripNonDigits rest) else stripNonDigits rest
  end.

(** [s.includes(t)]. *)
Fixpoint includes (s t : string) : bool :=
  if String.prefix t s then true
  else match s with
       | EmptyString => false
       | String _ rest => includes rest t
       end.

(** White space and line terminators of one, two and three bytes. *)
Definition isSpace1 (a : Z) : bool :=
  ((9 <=? a) && (a <=? 13)) || (a =? 32).
Definition isSpace2 (a b : Z) : bool := (a =? 194) && (b =? 160).
Definition isSpace3 (a b c : Z) : bool :=
  ((a =? 225) && (b =? 154) && (c =? 128))
  || ((a =? 226) && (b =? 128)
      && (((128 <=? c) && (c <=? 138)) || (c =? 168) || (c =? 169) || (c =? 175)))
  || ((a =? 226) && (b =? 129) && (c =? 159))
  || ((a =? 227) && (b =? 128) && (c =? 128))
  || ((a =? 239) && (b =? 187) && (c =? 191)).

(** The string without its leading white space. *)
Fixpoint trimStart (s : string) : string :=
  match s with
  | EmptyString => s
  | String a r1 =>
      if isSpace1 (code a) then trimStart r1
      else match r1 with
           | EmptyString => s
           | String b r2 =>
               if isSpace2 (code a) (code b) then trimStart r2
               else match r2 with
                    | EmptyString => s
                    | String c r3 =>
                        if isSpace3 (code a) (code b) (code c)
                        then trimStart r3 else s
                    end
           end
  end.

Definition digitValue (c : ascii) : option Z :=
  let n := code c in
  if (48 <=? n) && (n <=? 57) then Some (n - 48)
  else if (97 <=? n) && (n <=? 122) then Some (n - 87)
  else if (65 <=? n) && (n <=? 90) then Some (n - 55)
  else None.

(** The value of the longest prefix of digits in [radix]; [acc] is [None]
    until a digit has been read. *)
Fixpoint digitsPrefix (radix : Z) (s : string) (acc : option Z) : option Z :=
  match s with
  | EmptyString => acc
  | String c rest =>
      match digitValue c with
      | Some d =>
          if d <? radix
          then digitsPrefix radix rest
                 (Some (radix * match acc with Some a => a | None => 0 end + d))
          else acc
      | None => acc
      end
  end.

(** [parseInt(s)] without a radix: leading white space is skipped, a sign
    is read, a [0x] or [0X] prefix selects radix 16, and the longest prefix
    of digits is the value; [None] is [NaN].  The value is the exact
    integer: it is only ever compared with integers below [2^53], for which
    rounding to a double does not change the comparison. *)
Definition parseInt (s : string) : option Z :=
  let s1 := trimStart s in
  let '(sign, s2) :=
    match s1 with
    | String "-" r => (-1, r)
    | String "+" r => (1, r)
    | _ => (1, s1)
    end in
  let '(radix, s3) :=
    match s2 with
    | String "0" (String "x" r) => (16, r)
    | String "0" (String "X" r) => (16, r)
    | _ => (10, s2)
    end in
  option_map (Z.mul sign) (digitsPrefix radix s3 None).

(** [a <= b] on numbers: false as soon as one side is [NaN]. *)
Definition leNumber (a b : option Z) : bool :=
  match a, b with
  | Some x, Some y => x <=? y
  | _, _ => false
  end.

(** *** [URLSearchParams.prototype.toString] *)

Definition hexDigit (n : Z) : ascii :=
  match String.get (Z.to_nat n) "0123456789ABCDEF" with
  | Some c => c
  | None => "0"%char
  end.

Definition formEncodeByte (c : ascii) : string :=
  let n := code c in
  if ((48 <=? n) && (n <=? 57)) || ((65 <=? n) && (n <=? 90))
     || ((97 <=? n) && (n <=? 122))
     || (n =? 42) || (n =? 45) || (n =? 46) || (n =? 95)
  then String c EmptyString
  else if n =? 32 then "+"
  else String "%" (String (hexDigit (n / 16)) (String (hexDigit (n mod 16)) EmptyString)).

Fixpoint formEncode (s : string) : string :=
  match s with
  | EmptyString => EmptyString
  | String c rest => formEncodeByte c ++ formEncode rest
  end.

Fixpoint urlencoded (params : list (string * string)) : string :=
  match params with
  | [] => EmptyString
  | (k, v) :: rest =>
      formEncode k ++ "=" ++ formEncode v ++
      match rest with
      | [] => EmptyString
      | _ :: _ => "&" ++ urlencoded rest
      end
  end.

(** *** Instances of the runtime's string functions

    [toLowerCase] restricted to ASCII letters, and [toISOString] for
    instants whose year lies between 0 and 9999.  The handlers below are
    parametric in the two functions; these are the instances used to run
    them on examples. *)

Definition asciiLowerChar (c : ascii) : ascii :=
  let n := code c in
  if (65 <=? n) && (n <=? 90) then ascii_of_nat (Z.to_nat (n + 32)) else c.

Fixpoint asciiLower (s : string) : string :=
  match s with
  | EmptyString => EmptyString
  | String c rest => String (asciiLowerChar c) (asciiLower rest)
  end.

Definition pad (width : nat) (n : Z) : string :=
  let digits := showZ n in
  (fix zeros (k : nat) : string :=
     match k with O => EmptyString | S k' => "0" ++ zeros k' end)
    (width - String.length digits)%nat ++ digits.

Definition isoString (t : Z) : string :=
  let days := t / 86400000 in
  let ms := t mod 86400000 in
  let z := days + 719468 in
  let era := z / 146097 in
  let doe := z - era * 146097 in
  let yoe := (doe - doe / 1460 + doe / 36524 - doe / 146096) / 365 in
  let doy := doe - (365 * yoe + yoe / 4 - yoe / 100) in
  let mp := (5 * doy + 2) / 153 in
  let d := doy - (153 * mp + 2) / 5 + 1 in
  let m := if mp <? 10 then mp + 3 else mp - 9 in
  let y := yoe + era * 400 + (if m <=? 2 then 1 else 0) in
  pad 4 y ++ "-" ++ pad 2 m ++ "-" ++ pad 2 d ++ "T" ++
  pad 2 (ms / 3600000) ++ ":" ++ pad 2 (ms / 60000 mod 60) ++ ":" ++
  pad 2 (ms / 1000 mod 60) ++ "." ++ pad 3 (ms mod 1000) ++ "Z".

(** *** Arithmetic on doubles

    A finite double is a rational number; the result of an operation is
    the exact result rounded to the nearest double, ties to even. *)

(** [floor (log2 (n / d))] for positive [n] and [d]. *)
Definition floorLog2 (n d : Z) : Z :=
  let k := Z.log2 n - Z.log2 d in
  let reaches := if 0 <=? k then d * 2 ^ k <=? n else d <=? n * 2 ^ (- k) in
  if reaches then k else k - 1.

(** The double nearest to a positive [n / d]: the exponent of its last
    place is 52 below that of the value, and not below -1074. *)
Definition roundPositive (n d : Z) : Q :=
  let e := Z.max (floorLog2 n d - 52) (-1074) in
  let num := if 0 <=? e then n else n * 2 ^ (- e) in
  let den := if 0 <=? e then d * 2 ^ e else d in
  let q := num / den in
  let r := num mod den in
  let q' := if (den <? 2 * r) || ((den =? 2 * r) && Z.odd q) then q + 1 else q in
  if 0 <=? e then inject_Z (q' * 2 ^ e) else Qmake q' (Z.to_pos (2 ^ (- e))).

(** Rounding to the nearest double, for values that do not overflow. *)
Definition roundDouble (x : Q) : Q :=
  match Qnum x with
  | Z0 => 0%Q
  | Zpos n => roundPositive (Zpos n) (Zpos (Qden x))
  | Zneg n => Qopp (roundPositive (Zpos n) (Zpos (Qden x)))
  end.

(** [a * b] on doubles. *)
Definition mulDouble (a b : Q) : Q := roundDouble (a * b).

End Js.

(** ** Effects *)

(** The options object [makeRequest] hands to [axios.get]. *)
Record AxiosConfig := {
  headers : list (string * string);
  timeout : Z;
  maxRedirects : Z
}.

(** What axios resolves with; [makeRequest] reads only [data]. *)
Record AxiosResponse := {
  status : Z;
  data : Js.Value
}.

(** What an outbound request meets: an HTTP response with some status code,
    or a failure below HTTP (timeout, refused or reset connection, DNS). *)
Inductive NetOutcome :=
| HttpResponse (code : Z) (body : Js.Value)
| TransportFailure (e : Js.Error).

(** Everything observable that the program does, in order. *)
Inductive Event :=
| ConsoleLog (args : list Js.Value)
| ConsoleError (args : list Js.Value)
| AxiosGet (url : string) (cfg : AxiosConfig)
| SetTimeout (ms : Z).

(** The world a call runs in.  [network url k] is what the [k]-th outbound
    request of the process (counted from 0) meets when sent to [url];
    [clock k] is the [k]-th reading of the clock in milliseconds; [random k]
    the [k]-th draw of [Math.random], a double given as the rational number
    it is.  The counters and the trace are the mutable part. *)
Record World := {
  network : string -> nat -> NetOutcome;
  clock : nat -> Z;
  random : nat -> Q;
  requests : nat;
  clockReads : nat;
  draws : nat;
  trace : list Event
}.

Definition emit (ev : Event) (w : World) : World :=
  {| network := network w; clock := clock w; random := random w;
     requests := requests w; clockReads := clockReads w; draws := draws w;
     trace := trace w ++ [ev] |}.

Definition countRequest (w : World) : World :=
  {| network := network w; clock := clock w; random := random w;
     requests := S (requests w); clockReads := clockReads w; draws := draws w;
     trace := trace w |}.

Definition countClockRead (w : World) : World :=
  {| network := network w; clock := clock w; random := random w;
     requests := requests w; clockReads := S (clockReads w); draws := draws w;
     trace := trace w |}.

Definition countDraw (w : World) : World :=
  {| network := network w; clock := clock w; random := random w;
     requests := requests w; clockReads := clockReads w; draws := S (draws w);
     trace := trace w |}.

(** A computation either completes normally with a value or throws. *)
Inductive Completion (A : Type) :=
| Normal (a : A)
| Thrown (e : Js.Error).
Arguments Normal {A} a.
Arguments Thrown {A} e.

Definition JsM (A : Type) : Type := World -> Completion A * World.

Definition ret {A} (a : A) : JsM A := fun w => (Normal a, w).

Definition bind {A B} (m : JsM A) (k : A -> JsM B) : JsM B :=
  fun w => match m w with
           | (Normal a, w') => k a w'
           | (Thrown e, w') => (Thrown e, w')
           end.

Definition throw {A} (e : Js.Error) : JsM A := fun w => (Thrown e, w).

(** [try { body } catch (error) { handler }]. *)
Definition tryCatch {A} (body : JsM A) (handler : Js.Error -> JsM A) : JsM A :=
  fun w => match body w with
           | (Normal a, w') => (Normal a, w')
           | (Thrown e, w') => handler e w'
           end.

Notation "x <- m ;; k" := (bind m (fun x => k))
  (at level 61, m at next level, right associativity).
Notation "m ;; k" := (bind m (fun _ => k))
  (at level 61, right associativity).

Definition console_log (args : list Js.Value) : JsM unit :=
  fun w => (Normal tt, emit (ConsoleLog args) w).

Definition console_error (args : list Js.Value) : JsM unit :=
  fun w => (Normal tt, emit (ConsoleError args) w).

(** [await new Promise(resolve => setTimeout(resolve, ms))]. *)
Definition sleep (ms : Z) : JsM unit :=
  fun w => (Normal tt, emit (SetTimeout ms) w).

(** axios settles a response by its [validateStatus] option; the source
    passes none, so the library default applies: 2xx resolves. *)
Definition validateStatus (code : Z) : bool :=
  (200 <=? code) && (code <? 300).

(** The error axios rejects with when the status is not accepted. *)
Definition statusError (code : Z) : Js.Error :=
  Js.MkError "AxiosError"
    ("Request failed with status code " ++ Js.showZ code) None.

(** How axios settles what the request met: it resolves with the response
    when the status passes [validateStatus] and rejects with an error
    otherwise, as it does on a transport failure. *)
Definition settle (o : NetOutcome) : Completion AxiosResponse :=
  match o with
  | HttpResponse code body =>
      if validateStatus code
      then Normal {| status := code; data := body |}
      else Thrown (statusError code)
  | TransportFailure e => Thrown e
  end.

(** [await axios.get(url, cfg)]: one outbound request. *)
Definition axios_get (url : string) (cfg : AxiosConfig) : JsM AxiosResponse :=
  fun w =>
    (settle (network w url (requests w)),
     countRequest (emit (AxiosGet url cfg) w)).

(** ** The retry helper *)

Definition EBAY_BASE : string := "https://www.ebay-kleinanzeigen.de".

Definition getHeaders : list (string * string) :=
  [ ("User-Agent", "Mozilla/5.0 (Windows NT 10.0; Win64; x64) AppleWebKit/537.36 (KHTML, like Gecko) Chrome/91.0.4472.124 Safari/537.36");
    ("Accept", "text/html,application/xhtml+xml,application/xml;q=0.9,image/webp,*/*;q=0.8");
    ("Accept-Language", "de-DE,de;q=0.9,en;q=0.8");
    ("Accept-Encoding", "gzip, deflate, br");
    ("Connection", "keep-alive");
    ("Upgrade-Insecure-Requests", "1") ].

Definition requestConfig : AxiosConfig :=
  {| headers := getHeaders; timeout := 10000; maxRedirects := 5 |}.

(** The [for (let i = ...; i < retries; i++)] loop of [makeRequest], entered
    with the loop variable at [i].  [retries] is an integer. *)
Equations? makeRequest_loop (url : string) (retries i : Z) : JsM Js.Value
  by wf (Z.to_nat (retries - i)) lt :=
  makeRequest_loop url retries i with Z_lt_dec i retries := {
    | left _ =>
        tryCatch
          (console_log [Js.Str ("Request to: " ++ url ++ " (Attempt "
                                 ++ Js.showZ (i + 1) ++ ")")] ;;
           response <- axios_get url requestConfig ;;
           ret (data response))
          (fun error =>
             console_error [Js.Str ("Request failed (Attempt "
                                     ++ Js.showZ (i + 1) ++ "):");
                            Js.Str (Js.message error)] ;;
             if i =? retries - 1 then throw error
             else
               (sleep (1000 * (i + 1)) ;;
                makeRequest_loop url retries (i + 1)))
    | right _ => ret Js.Undefined
  }.
Proof. lia. Qed.

(** [async function makeRequest(url, retries = 2)]. *)
Definition makeRequest (url : string) (retries : Z) : JsM Js.Value :=
  makeRequest_loop url retries 0.

Definition makeRequest_default (url : string) : JsM Js.Value :=
  makeRequest url 2.

(** ** The mock endpoints *)

(** [Date.now()], and the time value of [new Date()]. *)
Definition Date_now : JsM Z :=
  fun w => (Normal (clock w (clockReads w)), countClockRead w).

(** [Math.random()]: the next draw, a double in the range from 0 to 1. *)
Definition Math_random : JsM Q :=
  fun w => (Normal (random w (draws w)), countDraw w).

(** [list.filter(callback)] with a callback that may throw. *)
Fixpoint filterM {A} (callback : A -> JsM bool) (l : list A) : JsM (list A) :=
  match l with
  | [] => ret []
  | x :: rest =>
      keep <- callback x ;;
      kept <- filterM callback rest ;;
      ret (if keep then x :: kept else kept)
  end.

(** ToString where the program applies it to a value: on the properties
    handed to [URLSearchParams] and on the argument of [parseInt]. *)
Definition ToString (v : Js.Value) : JsM string :=
  match Js.toString v with
  | Some s => ret s
  | None => throw Js.cannotConvert
  end.

(** An entry of [mockResults]. *)
Module Listing.
Record t := {
  id : string;
  title : string;
  price : string;
  location : string;
  url : string;
  postedDate : string;
  images : list string
}.
End Listing.

(** The object [/ad/:id] answers with, next to [success]. *)
Module Ad.
Record t := {
  id : string;
  title : string;
  description : string;
  price : string;
  location : string;
  postedDate : string;
  images : list string;
  features : list string;
  seller_name : string;
  seller_type : string;
  url : string
}.
End Ad.

(** The JSON bodies the two handlers send. *)
Inductive Body :=
| SearchBody (success : bool) (count : Z) (results : list Listing.t)
    (query : Js.Value) (note : string)
| AdBody (success : bool) (details : Ad.t)
| ErrorBody (success : bool) (error details : string).

Record Response := {
  statusCode : Z;
  body : Body
}.

(** [body.count] and [body.results], when the body has them. *)
Definition bodyCount (b : Body) : option Z :=
  match b with SearchBody _ c _ _ _ => Some c | _ => None end.
Definition bodyResults (b : Body) : option (list Listing.t) :=
  match b with SearchBody _ _ rs _ _ => Some rs | _ => None end.

Section Handlers.

(** [String.prototype.toLowerCase] and [Date.prototype.toISOString] belong
    to the JavaScript runtime; the handlers are parametric in them. *)
Variable toLowerCase : string -> string.
Variable toISOString : Z -> string.

(** [receiver.toLowerCase()] where the receiver is the variable [expr]:
    anything but a string has no such method. *)
Definition callToLowerCase (expr : string) (receiver : Js.Value) : JsM string :=
  match receiver with
  | Js.Str s => ret (toLowerCase s)
  | _ => throw (Js.MkError "TypeError"
                  (expr ++ ".toLowerCase is not a function") None)
  end.

(** The five listings of [mockResults]: the clock is read once for each. *)
Definition mockResults : JsM (list Listing.t) :=
  t1 <- Date_now ;;
  t2 <- Date_now ;;
  t3 <- Date_now ;;
  t4 <- Date_now ;;
  t5 <- Date_now ;;
  ret [ {| Listing.id := "1";
           Listing.title := "iPhone 13 Pro 128GB Space Gray";
           Listing.price := "€ 650";
           Listing.location := "Berlin Mitte";
           Listing.url := "https://www.ebay-kleinanzeigen.de/s-anzeige/iphone-13-pro/123456";
           Listing.postedDate := toISOString t1;
           Listing.images := ["https://i.ebayimg.com/images/g/placeholder.jpg"] |};
        {| Listing.id := "2";
           Listing.title := "Samsung Galaxy S23 Ultra 256GB";
           Listing.price := "€ 800";
           Listing.location := "Berlin Charlottenburg";
           Listing.url := "https://www.ebay-kleinanzeigen.de/s-anzeige/samsung-galaxy/123457";
           Listing.postedDate := toISOString (t2 - 86400000);
           Listing.images := ["https://i.ebayimg.com/images/g/placeholder2.jpg"] |};
        {| Listing.id := "3";
           Listing.title := "MacBook Air M2 13" ++ String "034"%char " 256GB";
           Listing.price := "€ 1.200";
           Listing.location := "Berlin Prenzlauer Berg";
           Listing.url := "https://www.ebay-kleinanzeigen.de/s-anzeige/macbook-air/123458";
           Listing.postedDate := toISOString (t3 - 172800000);
           Listing.images := ["https://i.ebayimg.com/images/g/placeholder3.jpg"] |};
        {| Listing.id := "4";
           Listing.title := "Nintendo Switch OLED + Spiele";
           Listing.price := "€ 280";
           Listing.location := "Berlin Kreuzberg";
           Listing.url := "https://www.ebay-kleinanzeigen.de/s-anzeige/nintendo-switch/123459";
           Listing.postedDate := toISOString (t4 - 259200000);
           Listing.images := ["https://i.ebayimg.com/images/g/placeholder4.jpg"] |};
        {| Listing.id := "5";
           Listing.title := "Gaming PC RTX 4070 + AMD Ryzen 7";
           Listing.price := "€ 1.500";
           Listing.location := "Berlin Wedding";
           Listing.url := "https://www.ebay-kleinanzeigen.de/s-anzeige/gaming-pc/123460";
           Listing.postedDate := toISOString (t5 - 345600000);
           Listing.images := ["https://i.ebayimg.com/images/g/placeholder5.jpg"] |} ].

(** The callback of the price filter. *)
Definition withinPrice (maxPrice : option Z) (item : Listing.t) : bool :=
  let price := Js.parseInt (Js.stripNonDigits (Listing.price item)) in
  Js.leNumber price maxPrice.

(** The callback of the title filter. *)
Definition titleMatches (q : Js.Value) (item : Listing.t) : JsM bool :=
  needle <- callToLowerCase "q" q ;;
  ret (Js.includes (toLowerCase (Listing.title item)) needle).

(** [app.get('/search', ...)]; [query] holds the properties of
    [req.query].  [new URLSearchParams({...})] converts the values of its
    argument to strings in the order of the properties, [append] converts
    the value it is given, and [parseInt] its argument. *)
Definition search (query : list (string * Js.Value)) : JsM Response :=
  tryCatch
    (let q := Js.orDefault (Js.lookup query "q") (Js.Str "technik") in
     let locationName :=
       Js.orDefault (Js.lookup query "locationName") (Js.Str "Berlin") in
     let distance := Js.orDefault (Js.lookup query "distance") (Js.Str "50") in
     let priceMax := Js.lookup query "priceMax" in
     let sortBy :=
       Js.orDefault (Js.lookup query "sortBy") (Js.Str "CREATION_DATE_DESC") in
     console_log [Js.Str "Search parameters:"; Js.Obj query] ;;
     keywords <- ToString q ;;
     locationStr <- ToString locationName ;;
     radius <- ToString distance ;;
     let searchParams :=
       [ ("keywords", keywords);
         ("locationStr", locationStr);
         ("radius", radius);
         ("sortingField",
          if Js.strictEqStr sortBy "PRICE_ASC" then "PRICE" else "SORTING_DATE");
         ("adType", "OFFERED");
         ("pageNum", Js.showZ 1) ] in
     searchParams <-
       (if Js.truthy priceMax
        then value <- ToString priceMax ;;
             ret (searchParams ++ [("priceMax", value)])%list
        else ret searchParams) ;;
     let searchParams := (searchParams ++ [("categoryId", "161")])%list in
     let searchUrl :=
       EBAY_BASE ++ "/s-elektronik/" ++ Js.urlencoded searchParams in
     console_log [Js.Str "Searching URL:"; Js.Str searchUrl] ;;
     mockResults <- mockResults ;;
     filteredResults <-
       (if Js.truthy priceMax
        then priceMaxString <- ToString priceMax ;;
             let maxPrice := Js.parseInt priceMaxString in
             ret (filter (withinPrice maxPrice) mockResults)
        else ret mockResults) ;;
     filteredResults <-
       (if Js.truthy q && negb (Js.strictEqStr q "technik")
        then filterM (titleMatches q) filteredResults
        else ret filteredResults) ;;
     ret {| statusCode := 200;
            body := SearchBody true
                      (Z.of_nat (List.length filteredResults))
                      filteredResults
                      (Js.Obj query)
                      "Mock-Daten - zeigt realistische Technik-Angebote" |})
    (fun error =>
       console_error [Js.Str "Search error:"; Js.ErrorObject error] ;;
       ret {| statusCode := 500;
              body := ErrorBody false
                        "Fehler beim Laden der Suchergebnisse"
                        (Js.message error) |}).

(** [app.get('/ad/:id', ...)]; [id] is [req.params.id]. *)
Definition ad (id : string) : JsM Response :=
  tryCatch
    (console_log [Js.Str ("Loading ad details for ID: " ++ id)] ;;
     r <- Math_random ;;
     now <- Date_now ;;
     let mockDetails :=
       {| Ad.id := id;
          Ad.title := "Detailansicht für Anzeige #" ++ id;
          Ad.description := "Dies ist eine Beispiel-Beschreibung für die Anzeige. In der echten Version würden hier die tatsächlichen Details der eBay Kleinanzeigen stehen. Das Gerät ist in sehr gutem Zustand und wurde wenig genutzt.";
          Ad.price := "€ " ++ Js.showZ (Qfloor (Js.mulDouble r 1000) + 100);
          Ad.location := "Berlin";
          Ad.postedDate := toISOString now;
          Ad.images := ["https://i.ebayimg.com/images/g/placeholder.jpg"];
          Ad.features := ["Sehr guter Zustand"; "Originalverpackung";
                          "Garantie"; "Versand möglich"];
          Ad.seller_name := "TechnikVerkäufer123";
          Ad.seller_type := "Privatperson";
          Ad.url := "https://www.ebay-kleinanzeigen.de/s-anzeige/detail/" ++ id |} in
     ret {| statusCode := 200; body := AdBody true mockDetails |})
    (fun error =>
       console_error [Js.Str "Ad details error:"; Js.ErrorObject error] ;;
       ret {| statusCode := 500;
              body := ErrorBody false
                        "Fehler beim Laden der Anzeigendetails"
                        (Js.message error) |}).

(** The listings a request started in [w] builds: [mockResults] reads the
    clock five times and does nothing else. *)
Definition mockListings (w : World) : list Listing.t :=
  match fst (mockResults w) with
  | Normal listings => listings
  | Thrown _ => []
  end.

(** The listings left by the price filter; [None] when the conversion of
    [priceMax] throws. *)
Definition pricedListings (query : list (string * Js.Value)) (w : World) :
  option (list Listing.t) :=
  let priceMax := Js.lookup query "priceMax" in
  if Js.truthy priceMax
  then option_map
         (fun s => filter (withinPrice (Js.parseInt s)) (mockListings w))
         (Js.toString priceMax)
  else Some (mockListings w).

(** The two bodies of [/search]. *)
Definition searchOk (query : list (string * Js.Value)) (rs : list Listing.t) :
  Response :=
  {| statusCode := 200;
     body := SearchBody true (Z.of_nat (List.length rs)) rs (Js.Obj query)
               "Mock-Daten - zeigt realistische Technik-Angebote" |}.

Definition searchFailed (e : Js.Error) : Response :=
  {| statusCode := 500;
     body := ErrorBody false "Fehler beim Laden der Suchergebnisse"
               (Js.message e) |}.

Definition notAFunction : Js.Error :=
  Js.MkError "TypeError" "q.toLowerCase is not a function" None.

Definition titleIncludes (s : string) (item : Listing.t) : bool :=
  Js.includes (toLowerCase (Listing.title item)) (toLowerCase s).

(** The reply of [/search] once the price filter has left [priced]: the
    title filter runs or is skipped, and throws when it meets a [q] that is
    not a string. *)
Definition answerWith (query : list (string * Js.Value))
    (priced : list Listing.t) : Response :=
  let q := Js.orDefault (Js.lookup query "q") (Js.Str "technik") in
  if Js.truthy q && negb (Js.strictEqStr q "technik")
  then match q, priced with
       | Js.Str s, _ => searchOk query (filter (titleIncludes s) priced)
       | _, [] => searchOk query []
       | _, _ :: _ => searchFailed notAFunction
       end
  else searchOk query priced.

End Handlers.

(** ** Observations on a run *)

(** What the [j]-th attempt of a call started in [w] meets ([j] from 0), and
    how axios settles it. *)
Definition attempt (w : World) (url : string) (j : nat) : Completion AxiosResponse :=
  settle (network w url (requests w + j)%nat).

(** The events a call added to the trace. *)
Definition eventsSince (w w' : World) : list Event :=
  skipn (List.length (trace w)) (trace w').

(** The number of outbound requests a call made. *)
Definition requestsSince (w w' : World) : nat :=
  (requests w' - requests w)%nat.

Definition isRequest (ev : Event) : bool :=
  match ev with AxiosGet _ _ => true | _ => false end.

(** The timer delays of a trace, each with the number of requests that
    precede it in the trace ([seen] counts those before the trace). *)
Fixpoint delaysFrom (seen : nat) (evs : list Event) : list (nat * Z) :=
  match evs with
  | [] => []
  | AxiosGet _ _ :: rest => delaysFrom (S seen) rest
  | SetTimeout ms :: rest => (seen, ms) :: delaysFrom seen rest
  | _ :: rest => delaysFrom seen rest
  end.

Definition delays (evs : list Event) : list Z := map snd (delaysFrom 0 evs).

(** The console lines of attempt [i] (from 0), as the source formats them. *)
Definition logAttempt (url : string) (i : Z) : Event :=
  ConsoleLog [Js.Str ("Request to: " ++ url ++ " (Attempt "
                       ++ Js.showZ (i + 1) ++ ")")].

Definition logFailure (i : Z) (e : Js.Error) : Event :=
  ConsoleError [Js.Str ("Request failed (Attempt " ++ Js.showZ (i + 1) ++ "):");
                Js.Str (Js.message e)].

(** The world after [n] more requests and the events [evs]. *)
Definition advance (evs : list Event) (n : nat) (w : World) : World :=
  {| network := network w; clock := clock w; random := random w;
     requests := requests w + n; clockReads := clockReads w; draws := draws w;
     trace := trace w ++ evs |}.

(** The events of an attempt that failed and was followed by a retry. *)
Definition retriedRound (url : string) (i : Z) (e : Js.Error) : list Event :=
  [logAttempt url i; AxiosGet url requestConfig; logFailure i e;
   SetTimeout (1000 * (i + 1))].

(** The events of successive retried attempts, the first with loop index
    [i], failing with the errors [errs]. *)
Fixpoint retriedRounds (url : string) (i : Z) (errs : list Js.Error) : list Event :=
  match errs with
  | [] => []
  | e :: rest => retriedRound url i e ++ retriedRounds url (i + 1) rest
  end.

(** ** Worlds to run the program in *)

(** The error of a request that exceeded the configured timeout. *)
Definition timeoutError : Js.Error :=
  Js.MkError "AxiosError" "timeout of 10000ms exceeded" None.

(** The error of a request whose target is not a URL. *)
Definition invalidUrlError : Js.Error :=
  Js.MkError "TypeError" "Invalid URL" None.

(** A fresh process on the transport [net]; the clock stands at the epoch
    and every random draw is 0. *)
Definition world0 (net : string -> nat -> NetOutcome) : World :=
  {| network := net; clock := fun _ => 0; random := fun _ => 0%Q;
     requests := 0; clockReads := 0; draws := 0; trace := [] |}.

(** A transport on which every request times out. *)
Definition downWorld : World :=
  world0 (fun _ _ => TransportFailure timeoutError).

(** A transport on which the first [failures] requests time out and the
    following ones are answered with status 200. *)
Definition flakyWorld (failures : nat) : World :=
  world0 (fun _ k => if (k <? failures)%nat
                     then TransportFailure timeoutError
                     else HttpResponse 200 (Js.Str "ok")).

(** A transport on which every request is answered with status 404. *)
Definition notFoundWorld : World :=
  world0 (fun _ _ => HttpResponse 404 (Js.Str "Not Found")).

(** A transport on which the first request is answered with status 503 and
    the following ones with status 200. *)
Definition busyThenOkWorld : World :=
  world0 (fun _ k => if (k <? 1)%nat
                     then HttpResponse 503 (Js.Str "busy")
                     else HttpResponse 200 (Js.Str "ok")).

(** A process whose random draws all give [r]. *)
Definition drawWorld (r : Q) : World :=
  {| network := fun _ _ => TransportFailure timeoutError;
     clock := fun _ => 0; random := fun _ => r;
     requests := 0; clockReads := 0; draws := 0; trace := [] |}.

(** A transport that refuses the target of every request. *)
Definition invalidUrlWorld : World :=
  world0 (fun _ _ => TransportFailure invalidUrlError).

(** ** The shape of a run *)

(** The first attempts of a call started in [w] are rejected with [errs]. *)
Definition failsWith (w : World) (url : string) (errs : list Js.Error) : Prop :=
  forall j e, nth_error errs j = Some e -> attempt w url j = Thrown e.

(** A run of the loop entered at index [i] ends in one of three ways: the
    loop body is never entered; some attempt resolves after the attempts
    before it were rejected and retried; or the attempt with index
    [retries - 1] is rejected after all before it were. *)
Inductive LoopRun (url : string) (retries i : Z) (w : World) :
  Completion Js.Value * World -> Prop :=
| RunNone :
    retries <= i ->
    LoopRun url retries i w (Normal Js.Undefined, w)
| RunResolved errs response :
    failsWith w url errs ->
    i + Z.of_nat (List.length errs) < retries ->
    attempt w url (List.length errs) = Normal response ->
    LoopRun url retries i w
      (Normal (data response),
       advance (retriedRounds url i errs ++
                [logAttempt url (i + Z.of_nat (List.length errs));
                 AxiosGet url requestConfig])
               (List.length errs + 1) w)
| RunExhausted errs error :
    failsWith w url errs ->
    i + Z.of_nat (List.length errs) = retries - 1 ->
    attempt w url (List.length errs) = Thrown error ->
    LoopRun url retries i w
      (Thrown error,
       advance (retriedRounds url i errs ++
                [logAttempt url (i + Z.of_nat (List.length errs));
                 AxiosGet url requestConfig;
                 logFailure (i + Z.of_nat (List.length errs)) error])
               (List.length errs + 1) w).

Definition countRequests (evs : list Event) : nat :=
  List.length (filter isRequest evs).

(** How a call of [makeRequest] started in [w] completes, and the world it
    leaves. *)
Definition outcome (url : string) (retries : Z) (w : World) : Completion Js.Value :=
  fst (makeRequest url retries w).
Definition after (url : string) (retries : Z) (w : World) : World :=
  snd (makeRequest url retries w).

(** The last events of a run that entered the loop: those of the attempt
    with index [i] that ended the call, resolved or rejected with [e]. *)
Definition lastRound (url : string) (i : Z) (end_ : Completion AxiosResponse) : list Event :=
  match end_ with
  | Normal _ => [logAttempt url i; AxiosGet url requestConfig]
  | Thrown e => [logAttempt url i; AxiosGet url requestConfig; logFailure i e]
  end.

(** What follows a rejected attempt [j] (from 0) of a call with [n]
    attempts: the last attempt ends the call with its error; any other is
    followed by the timer and by a further request. *)
Definition rethrownOrRetried
    (url : string) (n : Z) (w : World) (j : nat) (e : Js.Error) : Prop :=
  (Z.of_nat j = n - 1 ->
     outcome url n w = Thrown e
     /\ requestsSince w (after url n w) = (j + 1)%nat)
  /\ (Z.of_nat j < n - 1 ->
        (j + 2 <= requestsSince w (after url n w))%nat
        /\ In ((j + 1)%nat, 1000 * Z.of_nat (j + 1))
              (delaysFrom 0 (eventsSince w (after url n w)))).

(** ** Independence of the transport *)

(** The same world on another transport. *)
Definition setNetwork (net : string -> nat -> NetOutcome) (w : World) : World :=
  {| network := net; clock := clock w; random := random w;
     requests := requests w; clockReads := clockReads w; draws := draws w;
     trace := trace w |}.

Definition isConsole (ev : Event) : bool :=
  match ev with ConsoleLog _ | ConsoleError _ => true | _ => false end.

(** A computation is offline when it makes no request, adds nothing but
    console output to the trace, and runs the same way on every
    transport. *)
Definition Offline {A} (m : JsM A) : Prop :=
  forall w,
    requests (snd (m w)) = requests w
    /\ (exists evs, trace (snd (m w)) = (trace w ++ evs)%list
                    /\ Forall (fun ev => isConsole ev = true) evs)
    /\ forall net, m (setNetwork net w) = (fst (m w), setNetwork net (snd (m w))).

(** ** Results of [/search] *)

(** [l1] is [l2] with some elements left out. *)
Inductive sublist {A} : list A -> list A -> Prop :=
| sublist_nil : sublist [] []
| sublist_skip x l1 l2 : sublist l1 l2 -> sublist l1 (x :: l2)
| sublist_keep x l1 l2 : sublist l1 l2 -> sublist (x :: l1) (x :: l2).

(** Whether [req.query.q] is missing or a single string. *)
Definition absentOrString (v : Js.Value) : bool :=
  match v with Js.Undefined | Js.Str _ => true | _ => false end.

(** Whether ToString yields a string for [v]. *)
Definition converts (v : Js.Value) : bool :=
  match Js.toString v with Some _ => true | None => false end.

(** Whether the conversions of a request succeed: those of [q],
    [locationName] and [distance] (or of their defaults), and that of
    [priceMax] when it is truthy. *)
Definition convertible (query : list (string * Js.Value)) : bool :=
  converts (Js.orDefault (Js.lookup query "q") (Js.Str "technik"))
  && converts (Js.orDefault (Js.lookup query "locationName") (Js.Str "Berlin"))
  && converts (Js.orDefault (Js.lookup query "distance") (Js.Str "50"))
  && (negb (Js.truthy (Js.lookup query "priceMax"))
      || converts (Js.lookup query "priceMax")).

(** ** Further observations *)

(** The sum of a list of durations. *)
Definition sumZ (l : list Z) : Z := fold_right Z.add 0 l.

Definition isLog (ev : Event) : bool :=
  match ev with ConsoleLog _ => true | _ => false end.

Definition isErrorLog (ev : Event) : bool :=
  match ev with ConsoleError _ => true | _ => false end.

Definition isTimer (ev : Event) : bool :=
  match ev with SetTimeout _ => true | _ => false end.

(** How many events of a trace satisfy [p]. *)
Definition countOf (p : Event -> bool) (evs : list Event) : nat :=
  List.length (filter p evs).

(** A listing without its date: the part that does not depend on the
    clock. *)
Definition undated (item : Listing.t) :
  string * string * string * string * string * list string :=
  (Listing.id item, Listing.title item, Listing.price item,
   Listing.location item, Listing.url item, Listing.images item).

(** What a client reads off a reply of [/search]: the status, [count] and
    the listings of [results]. *)
Definition observed (r : Response) : Z * option Z * option (list Listing.t) :=
  (statusCode r, bodyCount (body r), bodyResults (body r)).

(** What a client reads off a success reply with the listings [rs]. *)
Definition okObserved (rs : list Listing.t) : Z * option Z * option (list Listing.t) :=
  (200, Some (Z.of_nat (List.length rs)), Some rs).

(** What a client reads off the reply that [answerWith] builds; it depends
    on the query through [q] alone. *)
Definition observedAnswer (toLowerCase : string -> string) (qv : Js.Value)
    (priced : list Listing.t) : Z * option Z * option (list Listing.t) :=
  let q := Js.orDefault qv (Js.Str "technik") in
  if Js.truthy q && negb (Js.strictEqStr q "technik")
  then match q, priced with
       | Js.Str s, _ => okObserved (filter (titleIncludes toLowerCase s) priced)
       | _, [] => okObserved []
       | _, _ :: _ => (500, None, None)
       end
  else okObserved priced.

(** * Proofs *)

(** ** The loop, step by step *)

Lemma advance_advance evs1 n1 evs2 n2 w :
  advance evs2 n2 (advance evs1 n1 w) = advance (evs1 ++ evs2) (n1 + n2) w.
Proof.
  unfold advance; simpl. f_equal.
  - lia.
  - now rewrite app_assoc.
Qed.

Lemma attempt_advance evs n w url j :
  attempt (advance evs n w) url j = attempt w url (n + j).
Proof. unfold attempt; simpl. now rewrite Nat.add_assoc. Qed.

Lemma eventsSince_advance evs n w : eventsSince w (advance evs n w) = evs.
Proof.
  unfold eventsSince; simpl.
  rewrite skipn_app, skipn_all, Nat.sub_diag. reflexivity.
Qed.

Lemma requestsSince_advance evs n w : requestsSince w (advance evs n w) = n.
Proof. unfold requestsSince; simpl. lia. Qed.

(** One turn of the loop. *)
Lemma makeRequest_loop_step url retries i w :
  makeRequest_loop url retries i w =
  if i <? retries then
    match attempt w url 0 with
    | Normal response =>
        (Normal (data response),
         advance [logAttempt url i; AxiosGet url requestConfig] 1 w)
    | Thrown error =>
        if i =? retries - 1
        then (Thrown error,
              advance [logAttempt url i; AxiosGet url requestConfig;
                       logFailure i error] 1 w)
        else makeRequest_loop url retries (i + 1)
               (advance (retriedRound url i error) 1 w)
    end
  else (Normal Js.Undefined, w).
Proof.
  rewrite makeRequest_loop_equation_1.
  destruct (Z_lt_dec i retries) as [Hlt | Hge]; simp makeRequest_loop.
  - apply Z.ltb_lt in Hlt as ->.
    unfold tryCatch, bind, console_log, axios_get, console_error, sleep,
      throw, ret, attempt; simpl.
    rewrite Nat.add_0_r.
    destruct (settle (network w url (requests w))) as [response | error].
    + unfold advance, countRequest, emit; cbn [trace requests].
      rewrite <- !app_assoc, Nat.add_1_r. reflexivity.
    + destruct (i =? retries - 1);
        unfold advance, countRequest, emit, retriedRound; cbn [trace requests];
        rewrite <- !app_assoc, Nat.add_1_r; reflexivity.
  - apply Z.ltb_nlt in Hge as ->. reflexivity.
Qed.

(** ** The shape of every run *)

Lemma failsWith_nil w url : failsWith w url [].
Proof. intros [|j] e H; discriminate H. Qed.

Lemma failsWith_cons w url i e errs :
  attempt w url 0 = Thrown e ->
  failsWith (advance (retriedRound url i e) 1 w) url errs ->
  failsWith w url (e :: errs).
Proof.
  intros H0 Hrest [|j] e' Hj; simpl in Hj.
  - now inversion Hj; subst.
  - apply Hrest in Hj. now rewrite attempt_advance in Hj.
Qed.

Lemma LoopRun_retry url retries i w e r :
  i < retries - 1 ->
  attempt w url 0 = Thrown e ->
  LoopRun url retries (i + 1) (advance (retriedRound url i e) 1 w) r ->
  LoopRun url retries i w r.
Proof.
  intros Hi H0 Hrun.
  inversion Hrun as [Hle | errs response Hf Hlen Hlast | errs error Hf Hlen Hlast];
    subst.
  - lia.
  - rewrite attempt_advance in Hlast. rewrite advance_advance.
    replace (i + 1 + Z.of_nat (List.length errs))
      with (i + Z.of_nat (List.length (e :: errs))) in *
      by (simpl List.length; lia).
    rewrite app_assoc.
    change (retriedRound url i e ++ retriedRounds url (i + 1) errs)%list
      with (retriedRounds url i (e :: errs)).
    change (1 + (List.length errs + 1))%nat with (List.length (e :: errs) + 1)%nat.
    apply RunResolved; eauto using failsWith_cons.
  - rewrite attempt_advance in Hlast. rewrite advance_advance.
    replace (i + 1 + Z.of_nat (List.length errs))
      with (i + Z.of_nat (List.length (e :: errs))) in *
      by (simpl List.length; lia).
    rewrite app_assoc.
    change (retriedRound url i e ++ retriedRounds url (i + 1) errs)%list
      with (retriedRounds url i (e :: errs)).
    change (1 + (List.length errs + 1))%nat with (List.length (e :: errs) + 1)%nat.
    apply RunExhausted; eauto using failsWith_cons.
Qed.

(** Every run of the loop has one of the three shapes: in particular the
    loop always terminates. *)
Lemma makeRequest_loop_run url retries :
  forall i w, LoopRun url retries i w (makeRequest_loop url retries i w).
Proof.
  intros i.
  remember (Z.to_nat (retries - i)) as n eqn:Hn.
  revert i Hn. induction n as [|n IH]; intros i Hn w;
    rewrite makeRequest_loop_step.
  - assert (Hge : (i <? retries) = false) by (apply Z.ltb_ge; lia).
    rewrite Hge. apply RunNone. lia.
  - assert (Hlt : (i <? retries) = true) by (apply Z.ltb_lt; lia).
    rewrite Hlt.
    destruct (attempt w url 0) as [response | error] eqn:H0.
    + pose proof (RunResolved url retries i w [] response
                    (failsWith_nil w url)) as Hrun.
      cbn [List.length retriedRounds app Nat.add Z.of_nat] in Hrun.
      rewrite Z.add_0_r in Hrun. apply Hrun; [lia | assumption].
    + destruct (i =? retries - 1) eqn:Hlast.
      * apply Z.eqb_eq in Hlast.
        pose proof (RunExhausted url retries i w [] error
                      (failsWith_nil w url)) as Hrun.
        cbn [List.length retriedRounds app Nat.add Z.of_nat] in Hrun.
        rewrite Z.add_0_r in Hrun. apply Hrun; [lia | assumption].
      * apply Z.eqb_neq in Hlast.
        apply LoopRun_retry with (e := error); [lia | assumption |].
        apply IH. lia.
Qed.

(** ** Properties of the retry helper *)

Lemma failsWith_lt w url errs j :
  failsWith w url errs -> (j < List.length errs)%nat ->
  exists e, nth_error errs j = Some e /\ attempt w url j = Thrown e.
Proof.
  intros Hf Hj.
  destruct (nth_error errs j) as [e|] eqn:He.
  - exists e. split; [reflexivity | now apply Hf].
  - apply nth_error_None in He. lia.
Qed.

Lemma countRequests_app evs1 evs2 :
  countRequests (evs1 ++ evs2) = (countRequests evs1 + countRequests evs2)%nat.
Proof. unfold countRequests. now rewrite filter_app, length_app. Qed.

Lemma countRequests_retriedRounds url errs :
  forall i, countRequests (retriedRounds url i errs) = List.length errs.
Proof.
  induction errs as [|e errs IH]; intros i; [reflexivity |].
  cbn [retriedRounds]. rewrite countRequests_app, IH. reflexivity.
Qed.

Lemma delaysFrom_retriedRounds url errs tail :
  forall i seen,
    delaysFrom seen (retriedRounds url i errs ++ tail) =
    (map (fun k => ((seen + k)%nat, 1000 * (i + Z.of_nat k)))
         (seq 1 (List.length errs))
     ++ delaysFrom (seen + List.length errs) tail)%list.
Proof.
  induction errs as [|e errs IH]; intros i seen.
  - cbn [retriedRounds List.length seq map app]. now rewrite Nat.add_0_r.
  - cbn [retriedRounds retriedRound List.length app delaysFrom logAttempt logFailure].
    rewrite IH. cbn [seq map app].
    replace (seen + 1)%nat with (S seen) by lia.
    replace (i + Z.of_nat 1) with (i + 1) by lia.
    f_equal. rewrite <- (seq_shift (List.length errs) 1), map_map.
    replace (S seen + List.length errs)%nat
      with (seen + S (List.length errs))%nat by lia.
    f_equal. apply map_ext. intros k.
    f_equal; [lia | f_equal; lia].
Qed.

Lemma makeRequest_skips_loop url retries w :
  retries <= 0 -> makeRequest url retries w = (Normal Js.Undefined, w).
Proof.
  intros Hle. unfold makeRequest. rewrite makeRequest_loop_step.
  assert (Hge : (0 <? retries) = false) by (apply Z.ltb_ge; lia).
  now rewrite Hge.
Qed.

Lemma eventsSince_same w : eventsSince w w = [].
Proof. unfold eventsSince. apply skipn_all. Qed.

Lemma requestsSince_same w : requestsSince w w = 0%nat.
Proof. unfold requestsSince. lia. Qed.

(** C8: with [retries <= 0] the loop body is never entered: the call
    resolves with [undefined] and leaves the world as it was, so that no
    request was issued, no timer set, nothing logged and nothing thrown. *)
Theorem makeRequest_nonpositive_retries (url : string) (retries : Z) (w : World) :
  retries <= 0 ->
  makeRequest url retries w = (Normal Js.Undefined, w)
  /\ requestsSince w (after url retries w) = 0%nat
  /\ eventsSince w (after url retries w) = [].
Proof.
  intros Hle. pose proof (makeRequest_skips_loop url retries w Hle) as Hrun.
  unfold after. rewrite Hrun. cbn [snd].
  auto using requestsSince_same, eventsSince_same.
Qed.

(** Every call either never enters the loop, or makes [m] attempts that are
    rejected and retried and then one more that ends it. *)
Lemma makeRequest_shape url n w :
  (n <= 0 /\ makeRequest url n w = (Normal Js.Undefined, w))
  \/ exists errs, 
       let m := List.length errs in
       failsWith w url errs
       /\ Z.of_nat m < n
       /\ after url n w =
            advance (retriedRounds url 0 errs
                       ++ lastRound url (Z.of_nat m) (attempt w url m))
                    (m + 1) w
       /\ match attempt w url m with
          | Normal response => outcome url n w = Normal (data response)
          | Thrown e => Z.of_nat m = n - 1 /\ outcome url n w = Thrown e
          end.
Proof.
  unfold outcome, after, makeRequest.
  destruct (makeRequest_loop_run url n 0 w)
    as [Hle | errs response Hf Hlen Hlast | errs error Hf Hlen Hlast];
    cbn [fst snd].
  - left. split; [assumption | reflexivity].
  - right. exists errs. cbn zeta. rewrite Hlast.
    repeat split; auto.
  - right. exists errs. cbn zeta. rewrite Hlast.
    repeat split; auto; lia.
Qed.

Lemma delaysFrom_lastRound url i end_ seen :
  delaysFrom seen (lastRound url i end_) = [].
Proof. destruct end_; reflexivity. Qed.

Lemma In_retriedRounds url errs :
  forall i j e,
    nth_error errs j = Some e ->
    In (logFailure (i + Z.of_nat j) e) (retriedRounds url i errs)
    /\ In (SetTimeout (1000 * (i + Z.of_nat j + 1))) (retriedRounds url i errs).
Proof.
  induction errs as [|e0 errs IH]; intros i [|j] e Hj; try discriminate Hj.
  - inversion Hj; subst. cbn [retriedRounds retriedRound Z.of_nat].
    rewrite Z.add_0_r. split; apply in_or_app; left; simpl; auto.
  - cbn [nth_error] in Hj. destruct (IH (i + 1) j e Hj) as [H1 H2].
    replace (i + Z.of_nat (S j)) with (i + 1 + Z.of_nat j) by lia.
    cbn [retriedRounds]. split; apply in_or_app; right; assumption.
Qed.

(** When the attempts before the [j]-th are rejected, a run that enters the
    loop retries at least [j] times, and exactly [j] times if the [j]-th
    attempt ends the call. *)
Lemma retried_at_least w url errs j :
  failsWith w url errs ->
  (forall j', (j' < j)%nat -> exists e, attempt w url j' = Thrown e) ->
  (forall response, attempt w url (List.length errs) <> Normal response) \/
  (j <= List.length errs)%nat.
Proof.
  intros Hf Hearlier.
  destruct (Nat.le_gt_cases j (List.length errs)) as [Hle | Hgt]; [now right |].
  left. intros response Hres.
  destruct (Hearlier _ Hgt) as [e He]. congruence.
Qed.

Lemma retried_at_most w url errs j response :
  failsWith w url errs ->
  attempt w url j = Normal response ->
  (List.length errs <= j)%nat.
Proof.
  intros Hf Hres.
  destruct (Nat.le_gt_cases (List.length errs) j) as [Hle | Hgt]; [assumption |].
  destruct (failsWith_lt _ _ _ _ Hf Hgt) as (e & _ & He). congruence.
Qed.

(** The attempt that resolves first ends the call with its payload. *)
Lemma makeRequest_resolves_at url n w j response :
  Z.of_nat j < n ->
  (forall j', (j' < j)%nat -> exists e, attempt w url j' = Thrown e) ->
  attempt w url j = Normal response ->
  exists errs,
    List.length errs = j
    /\ failsWith w url errs
    /\ makeRequest url n w =
       (Normal (data response),
        advance (retriedRounds url 0 errs
                   ++ [logAttempt url (Z.of_nat j); AxiosGet url requestConfig])
                (j + 1) w).
Proof.
  intros Hj Hearlier Hres.
  destruct (makeRequest_shape url n w) as [[Hn _] | (errs & Hf & Hm & Hafter & Hout)];
    [lia |].
  pose proof (retried_at_most _ _ _ _ _ Hf Hres) as Hmost.
  assert (Hlen : List.length errs = j).
  { destruct (attempt w url (List.length errs)) as [r | e] eqn:Hlast.
    - destruct (retried_at_least _ _ _ j Hf Hearlier) as [Hno | Hleast]; [| lia].
      now destruct (Hno r).
    - destruct Hout as [Hlast' _]. lia. }
  exists errs. rewrite Hlen in *. rewrite Hres in *.
  repeat split; auto.
  rewrite (surjective_pairing (makeRequest url n w)).
  fold (outcome url n w) (after url n w). now rewrite Hout, Hafter.
Qed.

(** A rejected attempt with index [retries - 1] ends the call with its
    error. *)
Lemma makeRequest_rejected_last url n w j e :
  Z.of_nat j = n - 1 ->
  (forall j', (j' < j)%nat -> exists e', attempt w url j' = Thrown e') ->
  attempt w url j = Thrown e ->
  exists errs,
    List.length errs = j
    /\ failsWith w url errs
    /\ makeRequest url n w =
       (Thrown e,
        advance (retriedRounds url 0 errs
                   ++ [logAttempt url (Z.of_nat j); AxiosGet url requestConfig;
                       logFailure (Z.of_nat j) e])
                (j + 1) w).
Proof.
  intros Hj Hearlier Hrej.
  destruct (makeRequest_shape url n w) as [[Hn _] | (errs & Hf & Hm & Hafter & Hout)];
    [lia |].
  assert (Hlen : List.length errs = j).
  { destruct (Nat.lt_ge_cases (List.length errs) j) as [Hlt | Hge]; [| lia].
    destruct (Hearlier _ Hlt) as [e' He']. rewrite He' in Hout. lia. }
  exists errs. rewrite Hlen in *. rewrite Hrej in *.
  destruct Hout as [_ Hout]. repeat split; auto.
  rewrite (surjective_pairing (makeRequest url n w)).
  fold (outcome url n w) (after url n w). now rewrite Hout, Hafter.
Qed.

(** A rejected attempt with a smaller index is followed by a retry. *)
Lemma makeRequest_rejected_retry url n w j e :
  Z.of_nat j < n - 1 ->
  (forall j', (j' < j)%nat -> exists e', attempt w url j' = Thrown e') ->
  attempt w url j = Thrown e ->
  exists errs,
    (j < List.length errs)%nat
    /\ failsWith w url errs
    /\ after url n w =
       advance (retriedRounds url 0 errs
                  ++ lastRound url (Z.of_nat (List.length errs))
                       (attempt w url (List.length errs)))
               (List.length errs + 1) w.
Proof.
  intros Hj Hearlier Hrej.
  destruct (makeRequest_shape url n w) as [[Hn _] | (errs & Hf & Hm & Hafter & Hout)];
    [lia |].
  exists errs. repeat split; auto.
  destruct (Nat.lt_ge_cases j (List.length errs)) as [Hlt | Hge]; [assumption |].
  assert (Hthrown : exists e', attempt w url (List.length errs) = Thrown e').
  { destruct (Nat.eq_dec (List.length errs) j) as [-> | Hne]; [eauto |].
    apply Hearlier. lia. }
  destruct Hthrown as [e' He']. rewrite He' in Hout. lia.
Qed.

(** C1, as the code has it: when every one of the [n >= 1] attempts meets a
    transport failure, [makeRequest] makes exactly [n] requests and rejects
    with the error of the [n]-th attempt itself, not with a wrapper. *)
Theorem makeRequest_all_attempts_fail
    (url : string) (n : Z) (w : World) (err : nat -> Js.Error) :
  1 <= n ->
  (forall j, (j < Z.to_nat n)%nat ->
             network w url (requests w + j)%nat = TransportFailure (err j)) ->
  outcome url n w = Thrown (err (Z.to_nat n - 1)%nat)
  /\ requestsSince w (after url n w) = Z.to_nat n
  /\ countRequests (eventsSince w (after url n w)) = Z.to_nat n.
Proof.
  intros Hn Hfail.
  assert (Hatt : forall j, (j < Z.to_nat n)%nat -> attempt w url j = Thrown (err j)).
  { intros j Hj. unfold attempt. now rewrite Hfail. }
  destruct (makeRequest_rejected_last url n w (Z.to_nat n - 1)
              (err (Z.to_nat n - 1)%nat))
    as (errs & Hlen & _ & Hrun).
  - lia.
  - intros j' Hj'. exists (err j'). apply Hatt. lia.
  - apply Hatt. lia.
  - unfold outcome, after. rewrite Hrun. cbn [fst snd].
    rewrite requestsSince_advance, eventsSince_advance, countRequests_app,
      countRequests_retriedRounds, Hlen.
    cbn. repeat split; lia.
Qed.

(** C4, as the code has it: when attempts 1 to [k - 1] are rejected and
    the transport answers attempt [k < n] with a response whose status
    axios accepts (2xx), the call makes exactly [k] requests and returns
    the payload of that response. *)
Theorem makeRequest_first_success
    (url : string) (n : Z) (w : World) (k : nat) (code : Z) (payload : Js.Value) :
  (1 <= k)%nat ->
  Z.of_nat k < n ->
  (forall j, (j < k - 1)%nat -> exists e, attempt w url j = Thrown e) ->
  network w url (requests w + (k - 1))%nat = HttpResponse code payload ->
  validateStatus code = true ->
  outcome url n w = Normal payload
  /\ requestsSince w (after url n w) = k
  /\ countRequests (eventsSince w (after url n w)) = k.
Proof.
  intros Hk Hkn Hearlier Hnet Hcode.
  assert (Hres : attempt w url (k - 1)
                 = Normal {| status := code; data := payload |}).
  { unfold attempt. rewrite Hnet. cbn [settle]. now rewrite Hcode. }
  destruct (makeRequest_resolves_at url n w (k - 1)
              {| status := code; data := payload |})
    as (errs & Hlen & _ & Hrun); auto; [lia |].
  unfold outcome, after. rewrite Hrun. cbn [fst snd data].
  rewrite requestsSince_advance, eventsSince_advance, countRequests_app,
    countRequests_retriedRounds, Hlen.
  cbn. repeat split; lia.
Qed.

Lemma linear_delays_sorted len :
  forall a, StronglySorted Z.lt
              (map (fun i => 1000 * Z.of_nat i) (seq a len)).
Proof.
  induction len as [|len IH]; intros a; cbn [seq map]; constructor.
  - apply IH.
  - apply Forall_forall. intros d Hd.
    apply in_map_iff in Hd as (i & <- & Hi). apply in_seq in Hi. lia.
Qed.

(** C5: the timers of a run are set one after each attempt that is
    retried: the delay that follows the [i]-th request (from 1) and
    precedes the next one is [1000 * i] milliseconds, so that the delays
    of a run are non-negative and strictly increasing. *)
Theorem backoff_delays (url : string) (retries : Z) (w : World) :
  let evs := eventsSince w (after url retries w) in
  delaysFrom 0 evs =
    map (fun i => (i, 1000 * Z.of_nat i))
        (seq 1 (Nat.pred (requestsSince w (after url retries w))))
  /\ Forall (fun d => 0 <= d) (delays evs)
  /\ StronglySorted Z.lt (delays evs).
Proof.
  cbn zeta.
  assert (Hd : delaysFrom 0 (eventsSince w (after url retries w)) =
               map (fun i => (i, 1000 * Z.of_nat i))
                 (seq 1 (Nat.pred (requestsSince w (after url retries w))))).
  { destruct (makeRequest_shape url retries w)
      as [[Hn Hrun] | (errs & Hf & Hm & Hafter & Hout)].
    - unfold after. rewrite Hrun. cbn [snd].
      now rewrite eventsSince_same, requestsSince_same.
    - rewrite Hafter, eventsSince_advance, requestsSince_advance,
        delaysFrom_retriedRounds, delaysFrom_lastRound, app_nil_r.
      replace (Nat.pred (List.length errs + 1)) with (List.length errs) by lia.
      apply map_ext. intros i. now rewrite Z.add_0_l. }
  unfold delays. rewrite Hd, map_map. cbn [snd].
  repeat split.
  - apply Forall_forall. intros d Hin.
    apply in_map_iff in Hin as (i & <- & _). lia.
  - apply linear_delays_sorted.
Qed.

(** C6: a call that fails has made all [retries] attempts and rejects with
    the error of the last one; each earlier attempt was rejected too, and
    its error went to the console and nowhere else. *)
Theorem makeRequest_surfaces_last_error
    (url : string) (retries : Z) (w : World) (e : Js.Error) :
  outcome url retries w = Thrown e ->
  1 <= retries
  /\ requestsSince w (after url retries w) = Z.to_nat retries
  /\ attempt w url (Z.to_nat retries - 1) = Thrown e
  /\ In (logFailure (retries - 1) e) (eventsSince w (after url retries w))
  /\ forall j, (j < Z.to_nat retries - 1)%nat ->
       exists ej, attempt w url j = Thrown ej
                  /\ In (logFailure (Z.of_nat j) ej)
                        (eventsSince w (after url retries w)).
Proof.
  intros Hthrown.
  destruct (makeRequest_shape url retries w)
    as [[Hn Hrun] | (errs & Hf & Hm & Hafter & Hout)].
  - unfold outcome in Hthrown. rewrite Hrun in Hthrown. discriminate Hthrown.
  - destruct (attempt w url (List.length errs)) as [r | e'] eqn:Hlast.
    + rewrite Hout in Hthrown. discriminate Hthrown.
    + destruct Hout as [Hlen Hout]. rewrite Hout in Hthrown.
      injection Hthrown as ->.
      assert (Hm' : List.length errs = (Z.to_nat retries - 1)%nat) by lia.
      rewrite Hafter, eventsSince_advance, requestsSince_advance.
      rewrite <- Hm', <- Hlen.
      split; [lia |]. split; [lia |]. split; [assumption |]. split.
      * apply in_or_app. right. cbn [lastRound]. simpl; auto.
      * intros j Hj.
        destruct (failsWith_lt _ _ _ _ Hf Hj) as (ej & Hnth & Hatt).
        exists ej. split; [assumption |].
        apply in_or_app. left.
        apply (In_retriedRounds url errs 0 j ej Hnth).
Qed.

Lemma rejected_rethrownOrRetried url n w j e :
  Z.of_nat j < n ->
  (forall j', (j' < j)%nat -> exists e', attempt w url j' = Thrown e') ->
  attempt w url j = Thrown e ->
  rethrownOrRetried url n w j e.
Proof.
  intros Hj Hearlier Hrej. split; intros Hcase.
  - destruct (makeRequest_rejected_last url n w j e Hcase Hearlier Hrej)
      as (errs & Hlen & _ & Hrun).
    unfold outcome, after. rewrite Hrun. cbn [fst snd].
    now rewrite requestsSince_advance.
  - destruct (makeRequest_rejected_retry url n w j e Hcase Hearlier Hrej)
      as (errs & Hlen & _ & Hafter).
    rewrite Hafter, requestsSince_advance, eventsSince_advance,
      delaysFrom_retriedRounds, delaysFrom_lastRound, app_nil_r.
    split; [lia |].
    apply in_map_iff. exists (j + 1)%nat. split.
    + now rewrite Z.add_0_l.
    + apply in_seq. lia.
Qed.

(** C3, as the code has it: an attempt that is reached ends the call with
    the payload, and without a further request, exactly when axios
    resolves, that is when the transport yields a response whose status
    axios accepts (2xx).  A response with any other status is rejected by
    axios and handled as a transport failure is: rethrown by the last
    attempt, followed by the timer and a new request otherwise. *)
Theorem makeRequest_settled_attempt
    (url : string) (n : Z) (w : World) (j : nat) :
  Z.of_nat j < n ->
  (forall j', (j' < j)%nat -> exists e, attempt w url j' = Thrown e) ->
  match network w url (requests w + j)%nat with
  | HttpResponse code payload =>
      if validateStatus code
      then outcome url n w = Normal payload
           /\ requestsSince w (after url n w) = (j + 1)%nat
      else rethrownOrRetried url n w j (statusError code)
  | TransportFailure e => rethrownOrRetried url n w j e
  end.
Proof.
  intros Hj Hearlier.
  destruct (network w url (requests w + j)%nat) as [code payload | e] eqn:Hnet.
  - destruct (validateStatus code) eqn:Hcode.
    + destruct (makeRequest_resolves_at url n w j
                  {| status := code; data := payload |})
        as (errs & Hlen & _ & Hrun); auto.
      { unfold attempt. rewrite Hnet. cbn [settle]. now rewrite Hcode. }
      unfold outcome, after. rewrite Hrun. cbn [fst snd data].
      now rewrite requestsSince_advance.
    + apply rejected_rethrownOrRetried; auto.
      unfold attempt. rewrite Hnet. cbn [settle]. now rewrite Hcode.
  - apply rejected_rethrownOrRetried; auto.
    unfold attempt. now rewrite Hnet.
Qed.

(** C2, as the code has it: [makeRequest] checks neither argument and
    raises no error of its own.  With [retries <= 0] it issues no request
    and resolves with [undefined]; with [retries >= 1] it hands the target,
    whatever its form, to [axios.get] on the first turn of the loop; and an
    error it rejects with is always one [axios.get] rejected with. *)
Theorem makeRequest_validates_nothing (url : string) (retries : Z) (w : World) :
  (retries <= 0 ->
     outcome url retries w = Normal Js.Undefined
     /\ requestsSince w (after url retries w) = 0%nat)
  /\ (1 <= retries ->
        exists rest,
          eventsSince w (after url retries w) =
          logAttempt url 0 :: AxiosGet url requestConfig :: rest)
  /\ (forall e, outcome url retries w = Thrown e ->
                exists j, attempt w url j = Thrown e).
Proof.
  destruct (makeRequest_shape url retries w)
    as [[Hn Hrun] | (errs & Hf & Hm & Hafter & Hout)].
  - unfold outcome, after. rewrite Hrun. cbn [fst snd].
    repeat split; auto using requestsSince_same; try lia.
    intros e He. discriminate He.
  - split; [lia |]. split.
    + intros _. rewrite Hafter, eventsSince_advance.
      destruct errs as [|e0 errs].
      * destruct (attempt w url (List.length (@nil Js.Error))); cbn; eauto.
      * cbn [retriedRounds retriedRound app]. eauto.
    + intros e He. exists (List.length errs).
      destruct (attempt w url (List.length errs)) as [r | e'].
      * rewrite Hout in He. discriminate He.
      * destruct Hout as [_ Hout]. congruence.
Qed.

(** The first scenario of the specification: two failures, then success on
    the third of three attempts, after delays of one and two seconds. *)
Example scenario_ok :
  outcome "https://example.test/ok" 3 (flakyWorld 2) = Normal (Js.Str "ok")
  /\ requestsSince (flakyWorld 2)
       (after "https://example.test/ok" 3 (flakyWorld 2)) = 3%nat
  /\ delays (eventsSince (flakyWorld 2)
               (after "https://example.test/ok" 3 (flakyWorld 2)))
     = [1000; 2000].
Proof. vm_compute. auto. Qed.

(** C1, counterexample: two attempts that both time out end with the
    timeout error itself; the rejection is no [ExhaustedRetriesError] and
    wraps nothing. *)
Lemma makeRequest_exhausted_not_wrapped :
  outcome "https://example.test/down" 2 downWorld = Thrown timeoutError
  /\ requestsSince downWorld
       (after "https://example.test/down" 2 downWorld) = 2%nat
  /\ ~ (exists wrapper,
          outcome "https://example.test/down" 2 downWorld = Thrown wrapper
          /\ Js.name wrapper = "ExhaustedRetriesError"
          /\ Js.cause wrapper = Some timeoutError).
Proof.
  assert (H : outcome "https://example.test/down" 2 downWorld
              = Thrown timeoutError) by (vm_compute; reflexivity).
  split; [exact H |]. split; [vm_compute; reflexivity |].
  intros (wrapper & Hw & Hname & _). rewrite H in Hw.
  injection Hw as <-. discriminate Hname.
Qed.

Lemma makeRequest_all_attempts_fail_witness :
  1 <= 2
  /\ (forall j, (j < Z.to_nat 2)%nat ->
        network downWorld "https://example.test/down" (requests downWorld + j)%nat
        = TransportFailure timeoutError)
  /\ outcome "https://example.test/down" 2 downWorld = Thrown timeoutError
  /\ requestsSince downWorld
       (after "https://example.test/down" 2 downWorld) = 2%nat
  /\ countRequests (eventsSince downWorld
                      (after "https://example.test/down" 2 downWorld)) = 2%nat.
Proof.
  split; [lia |]. split; [reflexivity |].
  apply (makeRequest_all_attempts_fail "https://example.test/down" 2 downWorld
           (fun _ => timeoutError)); [lia | reflexivity].
Defined.

(** C2, counterexample: with [retries = 0] the call does not fail at all,
    and a malformed target with [retries = 1] is requested all the same and
    fails with the transport's own error. *)
Lemma makeRequest_no_configuration_error :
  outcome "https://example.test/ok" 0 downWorld = Normal Js.Undefined
  /\ ~ (exists e, outcome "https://example.test/ok" 0 downWorld = Thrown e
                  /\ Js.name e = "ConfigurationError")
  /\ outcome "not a url" 1 invalidUrlWorld = Thrown invalidUrlError
  /\ requestsSince invalidUrlWorld (after "not a url" 1 invalidUrlWorld) = 1%nat
  /\ ~ (exists e, outcome "not a url" 1 invalidUrlWorld = Thrown e
                  /\ Js.name e = "ConfigurationError").
Proof.
  assert (H0 : outcome "https://example.test/ok" 0 downWorld
               = Normal Js.Undefined) by (vm_compute; reflexivity).
  assert (H1 : outcome "not a url" 1 invalidUrlWorld = Thrown invalidUrlError)
    by (vm_compute; reflexivity).
  repeat split; try assumption.
  - intros (e & He & _). rewrite H0 in He. discriminate He.
  - intros (e & He & Hname). rewrite H1 in He.
    injection He as <-. discriminate Hname.
Qed.

Lemma makeRequest_validates_nothing_witness :
  outcome "not a url" (-1) invalidUrlWorld = Normal Js.Undefined
  /\ requestsSince invalidUrlWorld
       (after "not a url" (-1) invalidUrlWorld) = 0%nat.
Proof.
  apply (proj1 (makeRequest_validates_nothing "not a url" (-1) invalidUrlWorld)).
  lia.
Defined.

(** C3, counterexample: the transport answers the first attempt with a
    response of status 404; the payload is not returned, a second request
    is made after one second, and the call ends with axios's status
    error. *)
Lemma makeRequest_retries_not_found :
  network notFoundWorld "https://example.test/missing" 0
  = HttpResponse 404 (Js.Str "Not Found")
  /\ outcome "https://example.test/missing" 2 notFoundWorld
     <> Normal (Js.Str "Not Found")
  /\ outcome "https://example.test/missing" 2 notFoundWorld
     = Thrown (statusError 404)
  /\ requestsSince notFoundWorld
       (after "https://example.test/missing" 2 notFoundWorld) = 2%nat
  /\ delays (eventsSince notFoundWorld
               (after "https://example.test/missing" 2 notFoundWorld)) = [1000].
Proof.
  assert (H : outcome "https://example.test/missing" 2 notFoundWorld
              = Thrown (statusError 404)) by (vm_compute; reflexivity).
  repeat split; try (vm_compute; reflexivity).
  rewrite H. discriminate.
Qed.

Lemma makeRequest_settled_attempt_witness :
  Z.of_nat 0 < 2
  /\ (forall j', (j' < 0)%nat ->
        exists e, attempt notFoundWorld "https://example.test/missing" j' = Thrown e)
  /\ rethrownOrRetried "https://example.test/missing" 2 notFoundWorld 0
       (statusError 404).
Proof.
  split; [reflexivity |]. split; [intros j' Hj'; lia |].
  apply (makeRequest_settled_attempt "https://example.test/missing" 2
           notFoundWorld 0); [reflexivity | intros j' Hj'; lia].
Defined.

(** C4, counterexample: the transport answers the first of two attempts
    with a response, of status 503; the second attempt is made all the
    same, and what the call returns is the payload of the second response,
    not that of the first. *)
Lemma makeRequest_first_response_not_returned :
  network busyThenOkWorld "https://example.test/ok" 0
  = HttpResponse 503 (Js.Str "busy")
  /\ requestsSince busyThenOkWorld
       (after "https://example.test/ok" 2 busyThenOkWorld) = 2%nat
  /\ outcome "https://example.test/ok" 2 busyThenOkWorld = Normal (Js.Str "ok")
  /\ outcome "https://example.test/ok" 2 busyThenOkWorld
     <> Normal (Js.Str "busy").
Proof.
  assert (H : outcome "https://example.test/ok" 2 busyThenOkWorld
              = Normal (Js.Str "ok")) by (vm_compute; reflexivity).
  repeat split; try (vm_compute; reflexivity).
  rewrite H. discriminate.
Qed.

Lemma makeRequest_first_success_witness :
  (1 <= 2)%nat
  /\ Z.of_nat 2 < 3
  /\ (forall j, (j < 2 - 1)%nat ->
        exists e, attempt (flakyWorld 1) "https://example.test/ok" j = Thrown e)
  /\ network (flakyWorld 1) "https://example.test/ok"
       (requests (flakyWorld 1) + (2 - 1))%nat
     = HttpResponse 200 (Js.Str "ok")
  /\ validateStatus 200 = true
  /\ outcome "https://example.test/ok" 3 (flakyWorld 1) = Normal (Js.Str "ok")
  /\ requestsSince (flakyWorld 1)
       (after "https://example.test/ok" 3 (flakyWorld 1)) = 2%nat
  /\ countRequests (eventsSince (flakyWorld 1)
                      (after "https://example.test/ok" 3 (flakyWorld 1))) = 2%nat.
Proof.
  assert (Hearlier : forall j, (j < 2 - 1)%nat ->
            exists e, attempt (flakyWorld 1) "https://example.test/ok" j = Thrown e).
  { intros j Hj. exists timeoutError.
    destruct j as [|j]; [reflexivity | simpl in Hj; lia]. }
  split; [lia |]. split; [reflexivity |]. split; [exact Hearlier |].
  split; [reflexivity |]. split; [reflexivity |].
  apply (makeRequest_first_success "https://example.test/ok" 3 (flakyWorld 1) 2
           200 (Js.Str "ok"));
    [lia | reflexivity | exact Hearlier | reflexivity | reflexivity].
Defined.

Lemma makeRequest_surfaces_last_error_witness :
  outcome "https://example.test/down" 2 downWorld = Thrown timeoutError
  /\ 1 <= 2
  /\ requestsSince downWorld
       (after "https://example.test/down" 2 downWorld) = Z.to_nat 2
  /\ attempt downWorld "https://example.test/down" (Z.to_nat 2 - 1)
     = Thrown timeoutError
  /\ In (logFailure (2 - 1) timeoutError)
        (eventsSince downWorld (after "https://example.test/down" 2 downWorld))
  /\ forall j, (j < Z.to_nat 2 - 1)%nat ->
       exists ej, attempt downWorld "https://example.test/down" j = Thrown ej
                  /\ In (logFailure (Z.of_nat j) ej)
                        (eventsSince downWorld
                           (after "https://example.test/down" 2 downWorld)).
Proof.
  split; [vm_compute; reflexivity |].
  apply (makeRequest_surfaces_last_error "https://example.test/down" 2
           downWorld timeoutError).
  vm_compute; reflexivity.
Defined.

Lemma makeRequest_nonpositive_retries_witness :
  -3 <= 0
  /\ makeRequest "https://example.test/ok" (-3) downWorld
     = (Normal Js.Undefined, downWorld)
  /\ requestsSince downWorld
       (after "https://example.test/ok" (-3) downWorld) = 0%nat
  /\ eventsSince downWorld (after "https://example.test/ok" (-3) downWorld) = [].
Proof.
  split; [lia |].
  apply (makeRequest_nonpositive_retries "https://example.test/ok" (-3) downWorld).
  lia.
Defined.

(** ** The mock endpoints do not touch the transport *)

Lemma Offline_ret {A} (a : A) : Offline (ret a).
Proof.
  intros w. cbn. repeat split; auto.
  exists []. now rewrite app_nil_r.
Qed.

Lemma Offline_throw {A} (e : Js.Error) : Offline (@throw A e).
Proof.
  intros w. cbn. repeat split; auto.
  exists []. now rewrite app_nil_r.
Qed.

Lemma Offline_emit (ev : Event) :
  isConsole ev = true -> Offline (fun w => (Normal tt, emit ev w)).
Proof.
  intros Hev w. cbn. repeat split; auto.
  exists [ev]. split; [reflexivity | now constructor].
Qed.

Lemma Offline_console_log args : Offline (console_log args).
Proof. now apply Offline_emit. Qed.

Lemma Offline_console_error args : Offline (console_error args).
Proof. now apply Offline_emit. Qed.

Lemma Offline_Date_now : Offline Date_now.
Proof.
  intros w. cbn. repeat split; auto.
  exists []. now rewrite app_nil_r.
Qed.

Lemma Offline_Math_random : Offline Math_random.
Proof.
  intros w. cbn. repeat split; auto.
  exists []. now rewrite app_nil_r.
Qed.

Lemma Offline_bind {A B} (m : JsM A) (k : A -> JsM B) :
  Offline m -> (forall a, Offline (k a)) -> Offline (bind m k).
Proof.
  intros Hm Hk w. unfold bind.
  destruct (Hm w) as (Hreq & (evs & Htr & Hevs) & Hnet).
  destruct (m w) as [[a | e] w1] eqn:Hmw; cbn [fst snd] in *.
  - destruct (Hk a w1) as (Hreq' & (evs' & Htr' & Hevs') & Hnet').
    split; [congruence |]. split.
    + exists (evs ++ evs')%list. split.
      * now rewrite Htr', Htr, app_assoc.
      * now apply Forall_app.
    + intros net. now rewrite Hnet, Hnet'.
  - split; [assumption |]. split; [eauto |].
    intros net. now rewrite Hnet.
Qed.

Lemma Offline_tryCatch {A} (body : JsM A) (handler : Js.Error -> JsM A) :
  Offline body -> (forall e, Offline (handler e)) -> Offline (tryCatch body handler).
Proof.
  intros Hm Hk w. unfold tryCatch.
  destruct (Hm w) as (Hreq & (evs & Htr & Hevs) & Hnet).
  destruct (body w) as [[a | e] w1] eqn:Hmw; cbn [fst snd] in *.
  - split; [assumption |]. split; [eauto |].
    intros net. now rewrite Hnet.
  - destruct (Hk e w1) as (Hreq' & (evs' & Htr' & Hevs') & Hnet').
    split; [congruence |]. split.
    + exists (evs ++ evs')%list. split.
      * now rewrite Htr', Htr, app_assoc.
      * now apply Forall_app.
    + intros net. now rewrite Hnet, Hnet'.
Qed.

Lemma Offline_filterM {A} (callback : A -> JsM bool) (l : list A) :
  (forall x, Offline (callback x)) -> Offline (filterM callback l).
Proof.
  intros Hc. induction l as [|x l IH]; cbn [filterM].
  - apply Offline_ret.
  - apply Offline_bind; [apply Hc |]. intros keep.
    apply Offline_bind; [apply IH |]. intros kept. apply Offline_ret.
Qed.

Create HintDb offline.

#[local] Hint Resolve Offline_ret Offline_throw Offline_console_log
  Offline_console_error Offline_Date_now Offline_Math_random : offline.

Ltac offline :=
  repeat first
    [ apply Offline_tryCatch; [| intros ?]
    | apply Offline_bind; [| intros ?]
    | apply Offline_filterM; intros ?
    | solve [auto with offline] ].

Section HandlersOffline.

Variable toLowerCase : string -> string.
Variable toISOString : Z -> string.

Lemma Offline_callToLowerCase expr receiver :
  Offline (callToLowerCase toLowerCase expr receiver).
Proof. destruct receiver; cbn [callToLowerCase]; auto with offline. Qed.

Lemma Offline_ToString v : Offline (ToString v).
Proof. unfold ToString. destruct (Js.toString v); auto with offline. Qed.

Lemma Offline_mockResults : Offline (mockResults toISOString).
Proof. unfold mockResults. offline. Qed.

Lemma Offline_search query : Offline (search toLowerCase toISOString query).
Proof.
  unfold search. offline; try apply Offline_ToString.
  - destruct (Js.truthy _); offline. apply Offline_ToString.
  - destruct (Js.truthy _); offline. apply Offline_ToString.
  - destruct (_ && _); offline. apply Offline_callToLowerCase.
Qed.

Lemma Offline_ad id : Offline (ad toISOString id).
Proof. unfold ad. offline. Qed.

End HandlersOffline.

Lemma console_only evs :
  Forall (fun ev => isConsole ev = true) evs ->
  countRequests evs = 0%nat /\ forall seen, delaysFrom seen evs = [].
Proof.
  unfold countRequests.
  induction 1 as [|ev evs Hev _ [IHr IHd]]; [split; reflexivity |].
  destruct ev; try discriminate Hev; cbn [filter isRequest delaysFrom]; auto.
Qed.

Lemma Offline_no_request {A} (m : JsM A) w :
  Offline m ->
  requestsSince w (snd (m w)) = 0%nat
  /\ countRequests (eventsSince w (snd (m w))) = 0%nat
  /\ delays (eventsSince w (snd (m w))) = [].
Proof.
  intros Hm. destruct (Hm w) as (Hreq & (evs & Htr & Hevs) & _).
  split; [unfold requestsSince; lia |].
  unfold eventsSince, delays.
  rewrite Htr, skipn_app, skipn_all, Nat.sub_diag.
  cbn [skipn app]. destruct (console_only evs Hevs) as [Hr Hd].
  now rewrite Hr, Hd.
Qed.

(** C7: the handlers of [/search] and [/ad/:id] never reach the transport.
    Neither makes a request or sets a timer, as a run of the retry loop
    would, and on two worlds that differ only in the transport (same clock,
    same random draws) each sends the same response. *)
Theorem mock_endpoints_ignore_transport
    (toLowerCase : string -> string) (toISOString : Z -> string)
    (query : list (string * Js.Value)) (id : string)
    (w : World) (net : string -> nat -> NetOutcome) :
  (fst (search toLowerCase toISOString query (setNetwork net w))
   = fst (search toLowerCase toISOString query w)
   /\ requestsSince w (snd (search toLowerCase toISOString query w)) = 0%nat
   /\ countRequests
        (eventsSince w (snd (search toLowerCase toISOString query w))) = 0%nat
   /\ delays (eventsSince w (snd (search toLowerCase toISOString query w))) = [])
  /\ (fst (ad toISOString id (setNetwork net w)) = fst (ad toISOString id w)
      /\ requestsSince w (snd (ad toISOString id w)) = 0%nat
      /\ countRequests (eventsSince w (snd (ad toISOString id w))) = 0%nat
      /\ delays (eventsSince w (snd (ad toISOString id w))) = []).
Proof.
  pose proof (Offline_search toLowerCase toISOString query) as Hs.
  pose proof (Offline_ad toISOString id) as Ha.
  split.
  - destruct (Hs w) as (_ & _ & Hnet). rewrite Hnet. cbn [fst].
    destruct (Offline_no_request _ w Hs) as (H1 & H2 & H3). auto.
  - destruct (Ha w) as (_ & _ & Hnet). rewrite Hnet. cbn [fst].
    destruct (Offline_no_request _ w Ha) as (H1 & H2 & H3). auto.
Qed.

(** ** What [/search] answers *)

Lemma sublist_refl {A} (l : list A) : sublist l l.
Proof. induction l; constructor; assumption. Qed.

Lemma sublist_filter {A} (f : A -> bool) (l : list A) : sublist (filter f l) l.
Proof.
  induction l as [|x l IH]; cbn [filter]; [constructor |].
  destruct (f x); constructor; assumption.
Qed.

Lemma sublist_trans {A} (l1 l2 l3 : list A) :
  sublist l1 l2 -> sublist l2 l3 -> sublist l1 l3.
Proof.
  intros H12 H23. revert l1 H12.
  induction H23 as [| x l2 l3 _ IH | x l2 l3 _ IH]; intros l1 H12.
  - assumption.
  - constructor. now apply IH.
  - inversion H12; subst; constructor; now apply IH.
Qed.

Section SearchReply.

Variable toLowerCase : string -> string.
Variable toISOString : Z -> string.

Lemma mockResults_run w :
  exists w', mockResults toISOString w = (Normal (mockListings toISOString w), w')
             /\ trace w' = trace w.
Proof. eexists. split; reflexivity. Qed.

Lemma filterM_titleMatches_Str s l w :
  filterM (titleMatches toLowerCase (Js.Str s)) l w
  = (Normal (filter (titleIncludes toLowerCase s) l), w).
Proof.
  induction l as [|item l IH]; [reflexivity |].
  cbn [filterM filter].
  unfold titleMatches, callToLowerCase, bind, ret in *.
  rewrite IH. reflexivity.
Qed.

Lemma filterM_titleMatches_other q item l w :
  (forall s, q <> Js.Str s) ->
  filterM (titleMatches toLowerCase q) (item :: l) w = (Thrown notAFunction, w).
Proof.
  intros Hq. destruct q; try reflexivity. now destruct (Hq s).
Qed.

(** The reply of [/search] in closed form: the error body as soon as a
    conversion throws, otherwise what the two filters leave. *)
Lemma search_reply query w :
  fst (search toLowerCase toISOString query w) =
  Normal
    (if convertible query
     then match pricedListings toISOString query w with
          | Some priced => answerWith toLowerCase query priced
          | None => searchFailed Js.cannotConvert
          end
     else searchFailed Js.cannotConvert).
Proof.
  cbv beta iota zeta delta
    [search tryCatch bind console_log console_error ret throw ToString
     convertible converts pricedListings answerWith].
  destruct (Js.toString (Js.orDefault (Js.lookup query "q") (Js.Str "technik")))
    as [keywords |]; [| reflexivity].
  destruct (Js.toString
              (Js.orDefault (Js.lookup query "locationName") (Js.Str "Berlin")))
    as [locationStr |]; [| reflexivity].
  destruct (Js.toString (Js.orDefault (Js.lookup query "distance") (Js.Str "50")))
    as [radius |]; [| reflexivity].
  assert (Hfilter : forall priced w0,
    (if Js.truthy (Js.orDefault (Js.lookup query "q") (Js.Str "technik"))
        && negb (Js.strictEqStr
                   (Js.orDefault (Js.lookup query "q") (Js.Str "technik"))
                   "technik")
     then filterM
            (titleMatches toLowerCase
               (Js.orDefault (Js.lookup query "q") (Js.Str "technik")))
            priced
     else fun w1 => (Normal priced, w1)) w0
    = (if Js.truthy (Js.orDefault (Js.lookup query "q") (Js.Str "technik"))
          && negb (Js.strictEqStr
                     (Js.orDefault (Js.lookup query "q") (Js.Str "technik"))
                     "technik")
       then match Js.orDefault (Js.lookup query "q") (Js.Str "technik"),
                  priced with
            | Js.Str s, _ => Normal (filter (titleIncludes toLowerCase s) priced)
            | _, [] => Normal []
            | _, _ :: _ => Thrown notAFunction
            end
       else Normal priced, w0)).
  { intros priced w0.
    destruct (_ && _); [| reflexivity].
    destruct (Js.orDefault (Js.lookup query "q") (Js.Str "technik")) as
      [ | | b | n | s | items | fields | e];
      try (destruct priced as [|item rest];
           [reflexivity
           | now rewrite filterM_titleMatches_other by discriminate]).
    now rewrite filterM_titleMatches_Str. }
  destruct (Js.truthy (Js.lookup query "priceMax")).
  - destruct (Js.toString (Js.lookup query "priceMax")) as [value |];
      [| reflexivity].
    cbv beta iota.
    match goal with
    | |- context [mockResults toISOString ?w1] =>
        destruct (mockResults_run w1) as (w' & -> & _);
        change (mockListings toISOString w1) with (mockListings toISOString w)
    end.
    cbv beta iota. rewrite Hfilter. cbn [option_map negb orb andb].
    destruct (_ && _); [| reflexivity].
    destruct (Js.orDefault (Js.lookup query "q") (Js.Str "technik"));
      try reflexivity;
      now destruct (filter _ _).
  - cbv beta iota.
    match goal with
    | |- context [mockResults toISOString ?w1] =>
        destruct (mockResults_run w1) as (w' & -> & _);
        change (mockListings toISOString w1) with (mockListings toISOString w)
    end.
    cbv beta iota. rewrite Hfilter. cbn [option_map negb orb andb].
    destruct (_ && _); [| reflexivity].
    destruct (Js.orDefault (Js.lookup query "q") (Js.Str "technik"));
      try reflexivity;
      now destruct (mockListings toISOString w).
Qed.

End SearchReply.

(** Whatever the clock shows, the listings are the same five, in the same
    order; only their dates vary. *)
Lemma mockListings_five toISOString w :
  map Listing.id (mockListings toISOString w) = ["1"; "2"; "3"; "4"; "5"]
  /\ map Listing.price (mockListings toISOString w)
     = ["€ 650"; "€ 800"; "€ 1.200"; "€ 280"; "€ 1.500"].
Proof. split; reflexivity. Qed.

Lemma leNumber_true a b :
  Js.leNumber a b = true -> exists x y, a = Some x /\ b = Some y /\ x <= y.
Proof.
  destruct a as [x|], b as [y|]; cbn; try discriminate.
  intros H. exists x, y. repeat split. now apply Z.leb_le.
Qed.

Lemma Some_eq {A} (a b : A) : Some a = Some b -> a = b.
Proof. congruence. Qed.

Lemma pricedListings_sublist toISOString query w priced :
  pricedListings toISOString query w = Some priced ->
  sublist priced (mockListings toISOString w).
Proof.
  unfold pricedListings. destruct (Js.truthy _).
  - destruct (Js.toString _); cbn [option_map]; [| discriminate].
    intros H. apply Some_eq in H. subst priced. apply sublist_filter.
  - intros H. apply Some_eq in H. subst priced. apply sublist_refl.
Qed.

Lemma pricedListings_within toISOString query w priced item :
  Js.truthy (Js.lookup query "priceMax") = true ->
  pricedListings toISOString query w = Some priced ->
  In item priced ->
  exists maxString,
    Js.toString (Js.lookup query "priceMax") = Some maxString
    /\ withinPrice (Js.parseInt maxString) item = true.
Proof.
  unfold pricedListings. intros ->.
  destruct (Js.toString _) as [maxString |]; cbn [option_map]; [| discriminate].
  intros H Hin. apply Some_eq in H. subst priced.
  exists maxString. split; [reflexivity |].
  now apply filter_In in Hin.
Qed.

Lemma answerWith_results toLowerCase query priced rs :
  bodyResults (body (answerWith toLowerCase query priced)) = Some rs ->
  sublist rs priced
  /\ bodyCount (body (answerWith toLowerCase query priced))
     = Some (Z.of_nat (List.length rs)).
Proof.
  unfold answerWith. destruct (_ && _).
  - destruct (Js.orDefault _ _);
      try (destruct priced; cbn; [intros [= <-]; split; [constructor | reflexivity]
                                 | discriminate]).
    cbn. intros [= <-]. split; [apply sublist_filter | reflexivity].
  - cbn. intros [= <-]. split; [apply sublist_refl | reflexivity].
Qed.

Lemma sublist_In {A} (l1 l2 : list A) x : sublist l1 l2 -> In x l1 -> In x l2.
Proof. induction 1; cbn; intuition. Qed.

(** The results of a reply, with the listings they were taken from. *)
Lemma search_results toLowerCase toISOString query w response rs :
  fst (search toLowerCase toISOString query w) = Normal response ->
  bodyResults (body response) = Some rs ->
  exists priced,
    pricedListings toISOString query w = Some priced
    /\ response = answerWith toLowerCase query priced.
Proof.
  rewrite search_reply. intros [= <-].
  destruct (convertible query); [| discriminate].
  destruct (pricedListings toISOString query w) as [priced |]; [| discriminate].
  intros _. now exists priced.
Qed.

(** C9, as the code has it: [/search] always answers; in a success body
    (status 200) [count] is the length of [results], [results] is a
    sub-list of the five mock listings and, when [priceMax] is truthy, the
    price of every returned item is at most [parseInt(priceMax)]. *)
Theorem search_results_sound
    (toLowerCase : string -> string) (toISOString : Z -> string)
    (query : list (string * Js.Value)) (w : World) :
  exists response,
    fst (search toLowerCase toISOString query w) = Normal response
    /\ (statusCode response = 200 ->
          exists rs,
            bodyResults (body response) = Some rs
            /\ bodyCount (body response) = Some (Z.of_nat (List.length rs))
            /\ sublist rs (mockListings toISOString w)
            /\ (Js.truthy (Js.lookup query "priceMax") = true ->
                  forall item, In item rs ->
                    exists price maxString maxPrice,
                      Js.parseInt (Js.stripNonDigits (Listing.price item)) = Some price
                      /\ Js.toString (Js.lookup query "priceMax") = Some maxString
                      /\ Js.parseInt maxString = Some maxPrice
                      /\ price <= maxPrice)).
Proof.
  eexists. split; [apply search_reply |].
  destruct (convertible query); [| discriminate].
  destruct (pricedListings toISOString query w) as [priced |] eqn:Hp;
    [| discriminate].
  intros H200.
  assert (Hrs : exists rs,
            bodyResults (body (answerWith toLowerCase query priced)) = Some rs).
  { destruct (body (answerWith toLowerCase query priced)) eqn:Hb;
      cbn; eauto.
    - exfalso. revert Hb. unfold answerWith.
      destruct (_ && _); [| discriminate].
      destruct (Js.orDefault _ _); try discriminate;
        destruct priced; discriminate.
    - exfalso. revert H200 Hb. unfold answerWith.
      destruct (_ && _); [| discriminate].
      destruct (Js.orDefault _ _); try discriminate;
        destruct priced; discriminate. }
  destruct Hrs as [rs Hrs]. exists rs.
  destruct (answerWith_results _ _ _ _ Hrs) as [Hsub Hcount].
  split; [exact Hrs |]. split; [exact Hcount |]. split.
  - eapply sublist_trans; [exact Hsub | now apply pricedListings_sublist with query].
  - intros Htruthy item Hin.
    destruct (pricedListings_within _ _ _ _ item Htruthy Hp
                (sublist_In _ _ _ Hsub Hin)) as (maxString & Hs & Hwithin).
    unfold withinPrice in Hwithin.
    apply leNumber_true in Hwithin as (x & y & Hx & Hy & Hle).
    exists x, maxString, y. auto.
Qed.

(** C9, counterexample: a repeated [q] parameter reaches the handler as an
    array; the title filter throws and the reply is the error body, which
    has no [count] and no [results].  And an empty [priceMax] is supplied
    but falsy: nothing is filtered although [parseInt] of it is [NaN]. *)
Lemma search_reply_without_results :
  (exists response,
     fst (search Js.asciiLower Js.isoString
            [("q", Js.Arr [Js.Str "a"; Js.Str "b"])] downWorld) = Normal response
     /\ statusCode response = 500
     /\ bodyCount (body response) = None
     /\ bodyResults (body response) = None)
  /\ (exists response item rest,
        fst (search Js.asciiLower Js.isoString
               [("priceMax", Js.Str EmptyString)] downWorld) = Normal response
        /\ bodyResults (body response) = Some (item :: rest)
        /\ Listing.price item = "€ 650"
        /\ Js.toString (Js.Str EmptyString) = Some EmptyString
        /\ Js.leNumber (Js.parseInt (Js.stripNonDigits (Listing.price item)))
             (Js.parseInt EmptyString) = false).
Proof.
  split.
  - eexists. split; [vm_compute; reflexivity |]. cbn. auto.
  - do 3 eexists. split; [vm_compute; reflexivity |]. cbn. auto.
Qed.

Lemma search_results_sound_witness :
  exists response rs,
    fst (search Js.asciiLower Js.isoString
           [("q", Js.Str "g"); ("priceMax", Js.Str "1000")] downWorld)
    = Normal response
    /\ statusCode response = 200
    /\ bodyResults (body response) = Some rs
    /\ bodyCount (body response) = Some (Z.of_nat (List.length rs))
    /\ sublist rs (mockListings Js.isoString downWorld).
Proof.
  destruct (search_results_sound Js.asciiLower Js.isoString
              [("q", Js.Str "g"); ("priceMax", Js.Str "1000")] downWorld)
    as (response & Hrun & Hbody).
  assert (H200 : statusCode response = 200).
  { pose proof Hrun as Hc. vm_compute in Hc.
    apply (f_equal (fun c => match c with
                             | Normal r => statusCode r
                             | Thrown _ => 0
                             end)) in Hc.
    symmetry. exact Hc. }
  destruct (Hbody H200) as (rs & Hrs & Hcount & Hsub & _).
  exists response, rs. auto.
Defined.

(** C10: when [q] is absent or ['technik'] the title filter is skipped:
    the results of a reply are the listings the price filter left,
    whatever their titles, and there is such a reply as soon as the
    conversions of the request succeed.  For any other truthy [q] every
    returned item has a lower-cased title that contains the lower-cased
    [q].  A request without [q] indeed returns items whose titles do not
    contain ['technik']. *)
Theorem search_title_filter
    (toLowerCase : string -> string) (toISOString : Z -> string)
    (query : list (string * Js.Value)) (w : World) :
  let q := Js.lookup query "q" in
  let reply := fst (search toLowerCase toISOString query w) in
  ((q = Js.Undefined \/ q = Js.Str "technik") ->
     (forall response rs,
        reply = Normal response ->
        bodyResults (body response) = Some rs ->
        pricedListings toISOString query w = Some rs)
     /\ (convertible query = true ->
         exists response rs,
           reply = Normal response
           /\ bodyResults (body response) = Some rs
           /\ pricedListings toISOString query w = Some rs))
  /\ (Js.truthy q = true -> q <> Js.Str "technik" ->
        forall response rs item,
          reply = Normal response ->
          bodyResults (body response) = Some rs ->
          In item rs ->
          exists s, q = Js.Str s
                    /\ Js.includes (toLowerCase (Listing.title item))
                         (toLowerCase s) = true)
  /\ (exists response rs item,
        fst (search Js.asciiLower Js.isoString [] downWorld) = Normal response
        /\ bodyResults (body response) = Some rs
        /\ In item rs
        /\ Js.includes (Js.asciiLower (Listing.title item))
             (Js.asciiLower "technik") = false).
Proof.
  cbn zeta. split; [| split].
  - intros Hq.
    assert (Hskip : forall priced,
              answerWith toLowerCase query priced = searchOk query priced).
    { intros priced. unfold answerWith.
      destruct Hq as [-> | ->]; reflexivity. }
    split.
    + intros response rs Hreply Hrs.
      destruct (search_results _ _ _ _ _ _ Hreply Hrs) as (priced & Hp & ->).
      rewrite Hskip in Hrs. cbn in Hrs. now injection Hrs as <-.
    + intros Hconv. rewrite search_reply, Hconv.
      assert (Hp : exists priced,
                pricedListings toISOString query w = Some priced).
      { unfold convertible, converts, pricedListings in *.
        destruct (Js.truthy (Js.lookup query "priceMax")); [| eauto].
        destruct (Js.toString (Js.lookup query "priceMax")); cbn; [eauto |].
        rewrite !andb_false_r in Hconv. discriminate Hconv. }
      destruct Hp as [priced Hp]. rewrite Hp, Hskip.
      exists (searchOk query priced), priced. auto.
  - intros Htruthy Hne response rs item Hreply Hrs Hin.
    destruct (search_results _ _ _ _ _ _ Hreply Hrs) as (priced & Hp & ->).
    unfold answerWith in Hrs.
    destruct (Js.lookup query "q") as [ | | b | n | s | items | fields | e] eqn:Hval;
      cbn [Js.orDefault] in Hrs; try discriminate Htruthy;
      rewrite ?Htruthy in Hrs; cbn [andb negb Js.strictEqStr] in Hrs;
      try (destruct priced;
           cbn in Hrs; [injection Hrs as <-; destruct Hin | discriminate Hrs]).
    exists s. split; [reflexivity |].
    destruct (String.eqb s "technik") eqn:Hs.
    + apply String.eqb_eq in Hs. subst s. now destruct Hne.
    + cbn in Hrs. injection Hrs as <-.
      apply filter_In in Hin. apply Hin.
  - do 3 eexists. split; [vm_compute; reflexivity |].
    split; [reflexivity |]. split; [left; reflexivity | vm_compute; reflexivity].
Qed.

Lemma search_title_filter_witness :
  exists response rs,
    fst (search Js.asciiLower Js.isoString
           [("q", Js.Str "technik"); ("priceMax", Js.Str "700")] downWorld)
    = Normal response
    /\ bodyResults (body response) = Some rs
    /\ pricedListings Js.isoString
         [("q", Js.Str "technik"); ("priceMax", Js.Str "700")] downWorld
       = Some rs.
Proof.
  apply (proj1 (search_title_filter Js.asciiLower Js.isoString
                  [("q", Js.Str "technik"); ("priceMax", Js.Str "700")] downWorld)).
  - right. reflexivity.
  - reflexivity.
Defined.

(** The helper is not offline: with one attempt it makes a request. *)
Lemma makeRequest_not_offline : ~ Offline (makeRequest "https://example.test/ok" 1).
Proof.
  intros H. destruct (H downWorld) as (Hreq & _).
  vm_compute in Hreq. discriminate Hreq.
Qed.

(** ** More on the retry helper *)

(** A call with [retries >= 1] enters the loop. *)
Lemma makeRequest_entered url n w :
  1 <= n ->
  exists errs,
    failsWith w url errs
    /\ Z.of_nat (List.length errs) < n
    /\ after url n w =
         advance (retriedRounds url 0 errs
                    ++ lastRound url (Z.of_nat (List.length errs))
                         (attempt w url (List.length errs)))
                 (List.length errs + 1) w
    /\ match attempt w url (List.length errs) with
       | Normal response => outcome url n w = Normal (data response)
       | Thrown e => Z.of_nat (List.length errs) = n - 1
                     /\ outcome url n w = Thrown e
       end.
Proof.
  intros Hn.
  destruct (makeRequest_shape url n w) as [[Hle _] | H]; [lia | exact H].
Qed.


Lemma requests_of_retriedRounds url errs :
  forall i, filter isRequest (retriedRounds url i errs)
            = repeat (AxiosGet url requestConfig) (List.length errs).
Proof.
  induction errs as [|e errs IH]; intros i; [reflexivity |].
  cbn [retriedRounds]. rewrite filter_app, IH. reflexivity.
Qed.

(** X2: every request of a call goes to the [url] it was given, with the
    one fixed configuration (headers of [getHeaders], timeout 10000 ms, at
    most 5 redirects); there are as many as the request counter grew by. *)
Theorem makeRequest_requests_same_target (url : string) (retries : Z) (w : World) :
  filter isRequest (eventsSince w (after url retries w))
  = repeat (AxiosGet url requestConfig) (requestsSince w (after url retries w)).
Proof.
  destruct (makeRequest_shape url retries w)
    as [[Hn Hrun] | (errs & Hf & Hm & Hafter & Hout)].
  - unfold after. rewrite Hrun. cbn [snd].
    now rewrite eventsSince_same, requestsSince_same.
  - rewrite Hafter, eventsSince_advance, requestsSince_advance,
      filter_app, requests_of_retriedRounds, repeat_app.
    f_equal. now destruct (attempt w url (List.length errs)).
Qed.

(** The attempt that ended a resolved call. *)
Lemma resolved_first url n w v :
  1 <= n ->
  outcome url n w = Normal v ->
  exists j response,
    Z.of_nat j < n
    /\ (forall j', (j' < j)%nat -> exists e, attempt w url j' = Thrown e)
    /\ attempt w url j = Normal response
    /\ v = data response
    /\ requestsSince w (after url n w) = (j + 1)%nat.
Proof.
  intros Hn Hv.
  destruct (makeRequest_entered url n w Hn) as (errs & Hf & Hm & Hafter & Hout).
  destruct (attempt w url (List.length errs)) as [r | e] eqn:Hlast.
  - exists (List.length errs), r. repeat split; auto.
    + intros j' Hj'. destruct (failsWith_lt _ _ _ _ Hf Hj') as (e & _ & He).
      eauto.
    + congruence.
    + now rewrite Hafter, requestsSince_advance.
  - destruct Hout as [_ Hout]. congruence.
Qed.

(** X3: with [retries >= 1] a call rejects exactly when [axios.get]
    rejects on every one of the [retries] attempts. *)
Theorem makeRequest_rejects_iff (url : string) (n : Z) (w : World) :
  1 <= n ->
  ((exists e, outcome url n w = Thrown e)
   <-> (forall j, (j < Z.to_nat n)%nat -> exists e, attempt w url j = Thrown e)).
Proof.
  intros Hn. split.
  - intros [e He] j Hj.
    destruct (makeRequest_entered url n w Hn) as (errs & Hf & Hm & _ & Hout).
    destruct (attempt w url (List.length errs)) as [r | e'] eqn:Hlast;
      [congruence |].
    destruct Hout as [Hlen _].
    destruct (Nat.eq_dec j (List.length errs)) as [-> | Hne]; [eauto |].
    assert (Hlt : (j < List.length errs)%nat) by lia.
    destruct (failsWith_lt _ _ _ _ Hf Hlt) as (ej & _ & Hej). eauto.
  - intros Hall.
    destruct (Hall (Z.to_nat n - 1)%nat) as [e He]; [lia |].
    destruct (makeRequest_rejected_last url n w (Z.to_nat n - 1)%nat e)
      as (errs & _ & _ & Hrun); auto; [lia | intros j' Hj'; apply Hall; lia |].
    exists e. unfold outcome. now rewrite Hrun.
Qed.

Lemma makeRequest_rejects_iff_witness :
  1 <= 2
  /\ ((exists e, outcome "https://example.test/down" 2 downWorld = Thrown e)
      <-> (forall j, (j < Z.to_nat 2)%nat ->
             exists e, attempt downWorld "https://example.test/down" j = Thrown e)).
Proof.
  split; [lia |].
  apply (makeRequest_rejects_iff "https://example.test/down" 2 downWorld). lia.
Defined.

(** X4: the value a call with [retries >= 1] resolves with is the payload
    of the first attempt on which [axios.get] resolved, and that attempt
    was the last request. *)
Theorem makeRequest_resolves_with_first_payload
    (url : string) (n : Z) (w : World) (v : Js.Value) :
  1 <= n ->
  outcome url n w = Normal v ->
  exists j response,
    Z.of_nat j < n
    /\ (forall j', (j' < j)%nat -> exists e, attempt w url j' = Thrown e)
    /\ attempt w url j = Normal response
    /\ v = data response
    /\ requestsSince w (after url n w) = (j + 1)%nat.
Proof. apply resolved_first. Qed.

Lemma makeRequest_resolves_with_first_payload_witness :
  1 <= 3
  /\ outcome "https://example.test/ok" 3 (flakyWorld 2) = Normal (Js.Str "ok")
  /\ exists j response,
       Z.of_nat j < 3
       /\ (forall j', (j' < j)%nat ->
             exists e, attempt (flakyWorld 2) "https://example.test/ok" j' = Thrown e)
       /\ attempt (flakyWorld 2) "https://example.test/ok" j = Normal response
       /\ Js.Str "ok" = data response
       /\ requestsSince (flakyWorld 2)
            (after "https://example.test/ok" 3 (flakyWorld 2)) = (j + 1)%nat.
Proof.
  split; [lia |]. split; [vm_compute; reflexivity |].
  apply (makeRequest_resolves_with_first_payload "https://example.test/ok" 3
           (flakyWorld 2) (Js.Str "ok")); [lia | vm_compute; reflexivity].
Defined.

Lemma failsWith_unique w url errs1 errs2 :
  List.length errs1 = List.length errs2 ->
  failsWith w url errs1 -> failsWith w url errs2 -> errs1 = errs2.
Proof.
  intros Hlen H1 H2. apply nth_error_ext. intros j.
  destruct (nth_error errs1 j) as [e1|] eqn:E1.
  - assert (Hj : (j < List.length errs2)%nat).
    { rewrite <- Hlen. apply nth_error_Some. congruence. }
    destruct (failsWith_lt _ _ _ _ H2 Hj) as (e2 & E2 & Ha2).
    apply H1 in E1. congruence.
  - apply nth_error_None in E1. symmetry. apply nth_error_None. lia.
Qed.

(** X5: raising [retries] does not change a call that resolves: with any
    larger bound it makes the same requests, writes the same trace and
    returns the same payload. *)
Theorem makeRequest_more_retries_same_run
    (url : string) (n n' : Z) (w : World) (v : Js.Value) :
  1 <= n -> n <= n' ->
  outcome url n w = Normal v ->
  makeRequest url n' w = makeRequest url n w.
Proof.
  intros Hn Hn' Hv.
  destruct (resolved_first url n w v Hn Hv) as (j & r & Hj & Hearlier & Hres & _).
  destruct (makeRequest_resolves_at url n w j r Hj Hearlier Hres)
    as (errs & Hlen & Hf & ->).
  destruct (makeRequest_resolves_at url n' w j r) as (errs' & Hlen' & Hf' & ->);
    auto; [lia |].
  now rewrite (failsWith_unique w url errs errs') by (auto; congruence).
Qed.

Lemma makeRequest_more_retries_same_run_witness :
  1 <= 3 /\ 3 <= 7
  /\ outcome "https://example.test/ok" 3 (flakyWorld 2) = Normal (Js.Str "ok")
  /\ makeRequest "https://example.test/ok" 7 (flakyWorld 2)
     = makeRequest "https://example.test/ok" 3 (flakyWorld 2).
Proof.
  split; [lia |]. split; [lia |]. split; [vm_compute; reflexivity |].
  apply (makeRequest_more_retries_same_run "https://example.test/ok" 3 7
           (flakyWorld 2) (Js.Str "ok")); [lia | lia | vm_compute; reflexivity].
Defined.

(** The delays of a run: one thousand milliseconds times 1, 2, ... for as
    many attempts as were retried. *)
Lemma delays_of_run url retries w :
  delays (eventsSince w (after url retries w))
  = map (fun i => 1000 * Z.of_nat i)
        (seq 1 (Nat.pred (requestsSince w (after url retries w)))).
Proof.
  unfold delays.
  destruct (makeRequest_shape url retries w)
    as [[Hn Hrun] | (errs & Hf & Hm & Hafter & Hout)].
  - unfold after. rewrite Hrun. cbn [snd].
    now rewrite eventsSince_same, requestsSince_same.
  - rewrite Hafter, eventsSince_advance, requestsSince_advance,
      delaysFrom_retriedRounds, delaysFrom_lastRound, app_nil_r, map_map.
    replace (Nat.pred (List.length errs + 1)) with (List.length errs) by lia.
    apply map_ext. intros i. cbn [snd]. now rewrite Z.add_0_l.
Qed.

Lemma sumZ_app l1 l2 : sumZ (l1 ++ l2) = sumZ l1 + sumZ l2.
Proof.
  unfold sumZ. induction l1 as [|x l1 IH]; cbn [app fold_right]; lia.
Qed.

Lemma sumZ_linear m :
  sumZ (map (fun i => 1000 * Z.of_nat i) (seq 1 m))
  = 500 * Z.of_nat m * (Z.of_nat m + 1).
Proof.
  induction m as [|m IH]; [reflexivity |].
  rewrite seq_S, map_app, sumZ_app, IH. cbn [map sumZ fold_right]. 
  replace (1 + m)%nat with (S m) by lia. nia.
Qed.

(** X6: the time a call spends waiting between attempts is
    [500 * m * (m + 1)] milliseconds, where [m], the number of attempts
    that were retried, is one less than the number of requests and at most
    [retries - 1]. *)
Theorem makeRequest_total_delay (url : string) (retries : Z) (w : World) :
  let m := Z.of_nat (Nat.pred (requestsSince w (after url retries w))) in
  sumZ (delays (eventsSince w (after url retries w))) = 500 * m * (m + 1)
  /\ m <= Z.max 0 (retries - 1).
Proof.
  cbn zeta. rewrite delays_of_run, sumZ_linear. split; [reflexivity |].
  destruct (makeRequest_shape url retries w)
    as [[Hn Hrun] | (errs & Hf & Hm & Hafter & Hout)].
  - unfold after. rewrite Hrun. cbn [snd]. rewrite requestsSince_same. lia.
  - rewrite Hafter, requestsSince_advance. lia.
Qed.

Lemma countOf_app p evs1 evs2 :
  countOf p (evs1 ++ evs2) = (countOf p evs1 + countOf p evs2)%nat.
Proof. unfold countOf. now rewrite filter_app, length_app. Qed.

Lemma countOf_retriedRounds p url errs :
  (forall i e, countOf p (retriedRound url i e) = 1%nat) ->
  forall i, countOf p (retriedRounds url i errs) = List.length errs.
Proof.
  intros Hp. induction errs as [|e errs IH]; intros i; [reflexivity |].
  cbn [retriedRounds]. rewrite countOf_app, Hp, IH. reflexivity.
Qed.

(** X7: console output and timers follow the attempts one to one: each
    request is announced by one [console.log] line, each rejected attempt
    leaves one [console.error] line, and one timer is set between two
    successive requests. *)
Theorem makeRequest_console_discipline (url : string) (retries : Z) (w : World) :
  let evs := eventsSince w (after url retries w) in
  let k := requestsSince w (after url retries w) in
  countOf isLog evs = k
  /\ countOf isTimer evs = Nat.pred k
  /\ countOf isErrorLog evs =
     match outcome url retries w with
     | Normal _ => Nat.pred k
     | Thrown _ => k
     end.
Proof.
  cbn zeta.
  destruct (makeRequest_shape url retries w)
    as [[Hn Hrun] | (errs & Hf & Hm & Hafter & Hout)].
  - unfold after, outcome. rewrite Hrun. cbn [fst snd].
    rewrite eventsSince_same, requestsSince_same. auto.
  - rewrite Hafter, eventsSince_advance, requestsSince_advance, !countOf_app,
      !countOf_retriedRounds by reflexivity.
    destruct (attempt w url (List.length errs)) as [r | e].
    + rewrite Hout. cbn. repeat split; lia.
    + destruct Hout as [_ ->]. cbn. repeat split; lia.
Qed.

(** ** More on [/search] *)

Lemma sublist_nil_l {A} (l : list A) : sublist [] l.
Proof. induction l; constructor; assumption. Qed.

Lemma sublist_filter_both {A} (f : A -> bool) (l1 l2 : list A) :
  sublist l1 l2 -> sublist (filter f l1) (filter f l2).
Proof.
  induction 1 as [| x l1 l2 _ IH | x l1 l2 _ IH]; cbn [filter].
  - constructor.
  - destruct (f x); [constructor |]; assumption.
  - destruct (f x); [constructor |]; assumption.
Qed.

Lemma sublist_filter_weaker {A} (f g : A -> bool) (l : list A) :
  (forall x, f x = true -> g x = true) ->
  sublist (filter f l) (filter g l).
Proof.
  intros Hfg. induction l as [|x l IH]; cbn [filter]; [constructor |].
  destruct (f x) eqn:Hf.
  - rewrite (Hfg x Hf). now constructor.
  - destruct (g x); [constructor |]; assumption.
Qed.

Lemma filter_all {A} (f : A -> bool) (l : list A) :
  (forall x, In x l -> f x = true) -> filter f l = l.
Proof.
  induction l as [|x l IH]; intros H; cbn [filter]; [reflexivity |].
  rewrite (H x) by (left; reflexivity). f_equal. apply IH.
  intros y Hy. apply H. now right.
Qed.

Lemma filter_none {A} (f : A -> bool) (l : list A) :
  (forall x, In x l -> f x = false) -> filter f l = [].
Proof.
  induction l as [|x l IH]; intros H; cbn [filter]; [reflexivity |].
  rewrite (H x) by (left; reflexivity). apply IH.
  intros y Hy. apply H. now right.
Qed.

(** The prices of the listings, as the price filter reads them. *)
Lemma mock_prices toISOString w item :
  In item (mockListings toISOString w) ->
  exists p, Js.parseInt (Js.stripNonDigits (Listing.price item)) = Some p
            /\ 280 <= p <= 1500.
Proof.
  intros Hin.
  cbv [mockListings mockResults bind ret Date_now fst] in Hin.
  cbn [In] in Hin.
  repeat (destruct Hin as [<- | Hin];
          [eexists; split; [vm_compute; reflexivity | lia] |]).
  destruct Hin.
Qed.

Lemma pricedListings_ext toISOString query1 query2 w :
  Js.lookup query1 "priceMax" = Js.lookup query2 "priceMax" ->
  pricedListings toISOString query1 w = pricedListings toISOString query2 w.
Proof. unfold pricedListings. now intros ->. Qed.

(** When the conversions succeed the price filter runs to its end. *)
Lemma convertible_priced toISOString query w :
  convertible query = true ->
  exists priced, pricedListings toISOString query w = Some priced.
Proof.
  unfold convertible, converts, pricedListings. intros Hconv.
  destruct (Js.truthy (Js.lookup query "priceMax")); [| eauto].
  destruct (Js.toString (Js.lookup query "priceMax")); cbn [option_map]; [eauto |].
  rewrite !andb_false_r in Hconv. discriminate Hconv.
Qed.

Lemma observed_answerWith toLowerCase query priced :
  observed (answerWith toLowerCase query priced)
  = observedAnswer toLowerCase (Js.lookup query "q") priced.
Proof.
  unfold answerWith, observedAnswer. cbn zeta.
  destruct (_ && _); [| reflexivity].
  destruct (Js.orDefault _ _); try reflexivity; now destruct priced.
Qed.

(** What a client reads off the reply of [/search], in closed form. *)
Lemma search_observed toLowerCase toISOString query w :
  exists r,
    fst (search toLowerCase toISOString query w) = Normal r
    /\ observed r =
       (if convertible query
        then match pricedListings toISOString query w with
             | Some priced =>
                 observedAnswer toLowerCase (Js.lookup query "q") priced
             | None => (500, None, None)
             end
        else (500, None, None)).
Proof.
  eexists. split; [apply search_reply |].
  destruct (convertible query); [| reflexivity].
  destruct (pricedListings toISOString query w); [| reflexivity].
  apply observed_answerWith.
Qed.

Lemma observedAnswer_Str toLowerCase s priced :
  s <> EmptyString -> s <> "technik" ->
  observedAnswer toLowerCase (Js.Str s) priced
  = okObserved (filter (titleIncludes toLowerCase s) priced).
Proof.
  intros Hne Hnt. unfold observedAnswer.
  cbn [Js.orDefault Js.truthy Js.strictEqStr].
  apply String.eqb_neq in Hne, Hnt. now rewrite Hne, Hnt.
Qed.

Lemma answerWith_nil toLowerCase query :
  answerWith toLowerCase query [] = searchOk query [].
Proof.
  unfold answerWith. destruct (_ && _); [| reflexivity].
  now destruct (Js.orDefault _ _).
Qed.

Lemma answerWith_Str toLowerCase query priced s :
  Js.lookup query "q" = Js.Str s ->
  s <> EmptyString -> s <> "technik" ->
  answerWith toLowerCase query priced
  = searchOk query (filter (titleIncludes toLowerCase s) priced).
Proof.
  intros Hq Hne Hnt. unfold answerWith. rewrite Hq.
  cbn [Js.orDefault Js.truthy Js.strictEqStr].
  apply String.eqb_neq in Hne, Hnt. now rewrite Hne, Hnt.
Qed.

(** X8: the reply of [/search] depends on the query only through [q],
    through [priceMax], and through whether the conversions of the request
    succeed: [sortBy] never matters, and [locationName] and [distance]
    matter only in that their conversion to a string may throw. *)
Theorem search_ignores_other_parameters
    (toLowerCase : string -> string) (toISOString : Z -> string)
    (query1 query2 : list (string * Js.Value)) (w : World) :
  Js.lookup query1 "q" = Js.lookup query2 "q" ->
  Js.lookup query1 "priceMax" = Js.lookup query2 "priceMax" ->
  convertible query1 = convertible query2 ->
  exists r1 r2,
    fst (search toLowerCase toISOString query1 w) = Normal r1
    /\ fst (search toLowerCase toISOString query2 w) = Normal r2
    /\ observed r1 = observed r2.
Proof.
  intros Hq Hp Hc.
  destruct (search_observed toLowerCase toISOString query1 w) as (r1 & H1 & O1).
  destruct (search_observed toLowerCase toISOString query2 w) as (r2 & H2 & O2).
  exists r1, r2. repeat split; auto.
  rewrite O1, O2.
  now rewrite Hq, Hc, (pricedListings_ext toISOString query1 query2 w Hp).
Qed.

Lemma search_ignores_other_parameters_witness :
  exists r1 r2,
    fst (search Js.asciiLower Js.isoString
           [("q", Js.Str "iphone"); ("sortBy", Js.Str "PRICE_ASC");
            ("locationName", Js.Str "Hamburg"); ("distance", Js.Str "5")]
           downWorld) = Normal r1
    /\ fst (search Js.asciiLower Js.isoString [("q", Js.Str "iphone")]
              downWorld) = Normal r2
    /\ observed r1 = observed r2.
Proof.
  apply (search_ignores_other_parameters Js.asciiLower Js.isoString
           [("q", Js.Str "iphone"); ("sortBy", Js.Str "PRICE_ASC");
            ("locationName", Js.Str "Hamburg"); ("distance", Js.Str "5")]
           [("q", Js.Str "iphone")] downWorld); reflexivity.
Defined.

Lemma withinPrice_weaker m1 m2 item :
  m1 <= m2 ->
  withinPrice (Some m1) item = true -> withinPrice (Some m2) item = true.
Proof.
  unfold withinPrice, Js.leNumber. intros Hle.
  destruct (Js.parseInt _) as [p|]; [| discriminate].
  intros H. apply Z.leb_le in H. apply Z.leb_le. lia.
Qed.

Lemma results_of_observed r :
  bodyResults (body r) = snd (observed r).
Proof. reflexivity. Qed.

Lemma observedAnswer_monotone toLowerCase qv priced1 priced2 rs1 rs2 :
  sublist priced1 priced2 ->
  snd (observedAnswer toLowerCase qv priced1) = Some rs1 ->
  snd (observedAnswer toLowerCase qv priced2) = Some rs2 ->
  sublist rs1 rs2.
Proof.
  intros Hsub. unfold observedAnswer. cbn zeta.
  destruct (_ && _).
  - destruct (Js.orDefault qv (Js.Str "technik"));
      try (destruct priced1; [| discriminate];
           destruct priced2; [| discriminate];
           cbn; intros H1 H2; apply Some_eq in H1, H2; subst; constructor).
    cbn. intros H1 H2. apply Some_eq in H1, H2. subst.
    now apply sublist_filter_both.
  - cbn. intros H1 H2. apply Some_eq in H1, H2. now subst.
Qed.

(** X9: the price filter is monotone: with the same [q], every listing
    returned for a price limit is also returned, in the same order, for any
    higher limit. *)
Theorem search_price_filter_monotone
    (toLowerCase : string -> string) (toISOString : Z -> string)
    (query1 query2 : list (string * Js.Value)) (w : World)
    (s1 s2 : string) (m1 m2 : Z) :
  Js.lookup query1 "q" = Js.lookup query2 "q" ->
  Js.truthy (Js.lookup query1 "priceMax") = true ->
  Js.truthy (Js.lookup query2 "priceMax") = true ->
  Js.toString (Js.lookup query1 "priceMax") = Some s1 ->
  Js.toString (Js.lookup query2 "priceMax") = Some s2 ->
  Js.parseInt s1 = Some m1 ->
  Js.parseInt s2 = Some m2 ->
  m1 <= m2 ->
  exists r1 r2,
    fst (search toLowerCase toISOString query1 w) = Normal r1
    /\ fst (search toLowerCase toISOString query2 w) = Normal r2
    /\ forall rs1 rs2,
         bodyResults (body r1) = Some rs1 ->
         bodyResults (body r2) = Some rs2 ->
         sublist rs1 rs2.
Proof.
  intros Hq Ht1 Ht2 Hs1 Hs2 Hp1 Hp2 Hle.
  destruct (search_observed toLowerCase toISOString query1 w) as (r1 & H1 & O1).
  destruct (search_observed toLowerCase toISOString query2 w) as (r2 & H2 & O2).
  exists r1, r2. split; [assumption |]. split; [assumption |].
  intros rs1 rs2. rewrite !results_of_observed, O1, O2.
  assert (Hpriced1 : pricedListings toISOString query1 w
                     = Some (filter (withinPrice (Some m1))
                               (mockListings toISOString w))).
  { unfold pricedListings. now rewrite Ht1, Hs1, <- Hp1. }
  assert (Hpriced2 : pricedListings toISOString query2 w
                     = Some (filter (withinPrice (Some m2))
                               (mockListings toISOString w))).
  { unfold pricedListings. now rewrite Ht2, Hs2, <- Hp2. }
  rewrite Hpriced1, Hpriced2, Hq.
  destruct (convertible query1); [| discriminate].
  destruct (convertible query2); [| discriminate].
  apply observedAnswer_monotone.
  apply sublist_filter_weaker. intros x. now apply withinPrice_weaker.
Qed.

Lemma search_price_filter_monotone_witness :
  exists r1 r2,
    fst (search Js.asciiLower Js.isoString
           [("q", Js.Str "g"); ("priceMax", Js.Str "700")] downWorld) = Normal r1
    /\ fst (search Js.asciiLower Js.isoString
              [("q", Js.Str "g"); ("priceMax", Js.Str "1000")] downWorld) = Normal r2
    /\ forall rs1 rs2,
         bodyResults (body r1) = Some rs1 ->
         bodyResults (body r2) = Some rs2 ->
         sublist rs1 rs2.
Proof.
  apply (search_price_filter_monotone Js.asciiLower Js.isoString
           [("q", Js.Str "g"); ("priceMax", Js.Str "700")]
           [("q", Js.Str "g"); ("priceMax", Js.Str "1000")] downWorld
           "700" "1000" 700 1000);
    [reflexivity | reflexivity | reflexivity | reflexivity | reflexivity
     | reflexivity | reflexivity | lia].
Defined.

(** X10: when the conversions of the request succeed, a truthy [priceMax]
    that parses to no number, or to one below the cheapest listing (280),
    empties the result: the handler answers with the success body and
    [count] 0, also for a [q] that is not a string. *)
Theorem search_price_below_all
    (toLowerCase : string -> string) (toISOString : Z -> string)
    (query : list (string * Js.Value)) (w : World) :
  convertible query = true ->
  Js.truthy (Js.lookup query "priceMax") = true ->
  (forall s, Js.toString (Js.lookup query "priceMax") = Some s ->
             match Js.parseInt s with
             | Some m => m < 280
             | None => True
             end) ->
  fst (search toLowerCase toISOString query w) = Normal (searchOk query []).
Proof.
  intros Hconv Ht Hm. rewrite search_reply, Hconv.
  assert (Hp : pricedListings toISOString query w = Some []).
  { destruct (convertible_priced toISOString query w Hconv) as [priced Hp].
    rewrite Hp. f_equal. revert Hp. unfold pricedListings. rewrite Ht.
    destruct (Js.toString (Js.lookup query "priceMax")) as [s |];
      cbn [option_map]; [| discriminate].
    intros H. apply Some_eq in H. subst priced.
    apply filter_none. intros item Hin.
    destruct (mock_prices toISOString w item Hin) as (p & Hp & Hrange).
    unfold withinPrice. rewrite Hp. specialize (Hm s eq_refl).
    destruct (Js.parseInt s) as [m|]; [| reflexivity].
    cbn. apply Z.leb_gt. lia. }
  rewrite Hp. now rewrite answerWith_nil.
Qed.

Lemma search_price_below_all_witness :
  fst (search Js.asciiLower Js.isoString
         [("q", Js.Arr [Js.Str "a"; Js.Str "b"]); ("priceMax", Js.Str "billig")]
         downWorld)
  = Normal (searchOk [("q", Js.Arr [Js.Str "a"; Js.Str "b"]);
                      ("priceMax", Js.Str "billig")] []).
Proof.
  apply (search_price_below_all Js.asciiLower Js.isoString
           [("q", Js.Arr [Js.Str "a"; Js.Str "b"]); ("priceMax", Js.Str "billig")]
           downWorld); [reflexivity | reflexivity |].
  intros s H. cbn in H. apply Some_eq in H. subst s. exact I.
Defined.

(** X11: when the conversions of both requests succeed, a [priceMax] that
    parses to at least 1500, the price of the dearest listing, filters
    nothing: status, [count] and [results] are those of the same request
    without [priceMax]. *)
Theorem search_price_above_all
    (toLowerCase : string -> string) (toISOString : Z -> string)
    (query1 query2 : list (string * Js.Value)) (w : World) (s : string) (m : Z) :
  Js.lookup query1 "q" = Js.lookup query2 "q" ->
  convertible query1 = true ->
  convertible query2 = true ->
  Js.truthy (Js.lookup query1 "priceMax") = true ->
  Js.toString (Js.lookup query1 "priceMax") = Some s ->
  Js.parseInt s = Some m ->
  1500 <= m ->
  Js.lookup query2 "priceMax" = Js.Undefined ->
  exists r1 r2,
    fst (search toLowerCase toISOString query1 w) = Normal r1
    /\ fst (search toLowerCase toISOString query2 w) = Normal r2
    /\ observed r1 = observed r2.
Proof.
  intros Hq Hc1 Hc2 Ht Hs Hp Hm Hnone.
  destruct (search_observed toLowerCase toISOString query1 w) as (r1 & H1 & O1).
  destruct (search_observed toLowerCase toISOString query2 w) as (r2 & H2 & O2).
  exists r1, r2. repeat split; auto.
  rewrite O1, O2, Hc1, Hc2, Hq.
  replace (pricedListings toISOString query1 w)
    with (pricedListings toISOString query2 w); [reflexivity |].
  unfold pricedListings. rewrite Ht, Hs, Hnone. cbn [Js.truthy option_map].
  rewrite Hp. f_equal. symmetry. apply filter_all. intros item Hin.
  destruct (mock_prices toISOString w item Hin) as (p & Hprice & Hrange).
  unfold withinPrice. rewrite Hprice. cbn. apply Z.leb_le. lia.
Qed.

Lemma search_price_above_all_witness :
  exists r1 r2,
    fst (search Js.asciiLower Js.isoString
           [("q", Js.Str "gaming"); ("priceMax", Js.Str "1500")] downWorld)
    = Normal r1
    /\ fst (search Js.asciiLower Js.isoString [("q", Js.Str "gaming")] downWorld)
       = Normal r2
    /\ observed r1 = observed r2.
Proof.
  apply (search_price_above_all Js.asciiLower Js.isoString
           [("q", Js.Str "gaming"); ("priceMax", Js.Str "1500")]
           [("q", Js.Str "gaming")] downWorld "1500" 1500);
    [reflexivity | reflexivity | reflexivity | reflexivity | reflexivity
     | reflexivity | lia | reflexivity].
Defined.

(** X12: the handler of [/search] sends its error body (status 500)
    exactly when a conversion of the request throws, or when [q] is truthy
    but not a string and at least one listing passes the price filter.
    [details] carries the message of the [TypeError]: that of the
    conversion in the first case, that of the title filter in the
    second. *)
Theorem search_fails_iff
    (toLowerCase : string -> string) (toISOString : Z -> string)
    (query : list (string * Js.Value)) (w : World) :
  exists r,
    fst (search toLowerCase toISOString query w) = Normal r
    /\ (statusCode r = 500 <->
        convertible query = false
        \/ (Js.truthy (Js.lookup query "q") = true
            /\ absentOrString (Js.lookup query "q") = false
            /\ exists item rest,
                 pricedListings toISOString query w = Some (item :: rest)))
    /\ (statusCode r = 500 ->
        body r = ErrorBody false "Fehler beim Laden der Suchergebnisse"
                   (if convertible query
                    then "q.toLowerCase is not a function"
                    else "Cannot convert object to primitive value")).
Proof.
  eexists. split; [apply search_reply |].
  destruct (convertible query) eqn:Hconv.
  2: { split; [| reflexivity]. split; [now left | reflexivity]. }
  destruct (convertible_priced toISOString query w Hconv) as [priced Hp].
  rewrite Hp. unfold answerWith.
  assert (Hne : forall item rest, Some priced = Some (item :: rest) ->
                                  priced = item :: rest)
    by (intros item rest H; now apply Some_eq in H).
  destruct (Js.lookup query "q") as [ | | b | n | s | items | fields | e];
    cbn [Js.orDefault Js.truthy Js.strictEqStr absentOrString andb negb].
  - cbn. split; [| discriminate].
    split; [discriminate | intros [H | (H & _)]; discriminate H].
  - cbn. split; [| discriminate].
    split; [discriminate | intros [H | (H & _)]; discriminate H].
  - destruct b; cbn; [destruct priced as [|item rest]; cbn |];
      (split; [split |]); try discriminate; try reflexivity;
      try (intros [H | (H & _)]; discriminate H);
      try (intros _; right; repeat split; eauto);
      try (intros [H | (_ & _ & item & rest & H)];
           [discriminate H | now apply Some_eq in H]).
  - destruct (n =? 0); cbn; [| destruct priced as [|item rest]; cbn];
      (split; [split |]); try discriminate; try reflexivity;
      try (intros [H | (H & _)]; discriminate H);
      try (intros _; right; repeat split; eauto);
      try (intros [H | (_ & _ & item & rest & H)];
           [discriminate H | now apply Some_eq in H]).
  - destruct (negb (s =? EmptyString)%string && negb (s =? "technik")%string);
      cbn; (split; [split |]); try discriminate;
      intros [H | (_ & H & _)]; discriminate H.
  - destruct priced as [|item rest]; cbn;
      (split; [split |]); try discriminate; try reflexivity;
      try (intros _; right; repeat split; eauto);
      try (intros [H | (_ & _ & item & rest & H)];
           [discriminate H | now apply Some_eq in H]).
  - destruct priced as [|item rest]; cbn;
      (split; [split |]); try discriminate; try reflexivity;
      try (intros _; right; repeat split; eauto);
      try (intros [H | (_ & _ & item & rest & H)];
           [discriminate H | now apply Some_eq in H]).
  - destruct priced as [|item rest]; cbn;
      (split; [split |]); try discriminate; try reflexivity;
      try (intros _; right; repeat split; eauto);
      try (intros [H | (_ & _ & item & rest & H)];
           [discriminate H | now apply Some_eq in H]).
Qed.

(** X13: the title filter does not distinguish upper and lower case in
    [q]: two requests whose [q] are words other than the default with the
    same lower-case form, with the same [priceMax] and whose conversions
    succeed alike, get the same status, [count] and [results]. *)
Theorem search_title_case_insensitive
    (toLowerCase : string -> string) (toISOString : Z -> string)
    (query1 query2 : list (string * Js.Value)) (w : World) (s1 s2 : string) :
  Js.lookup query1 "q" = Js.Str s1 ->
  Js.lookup query2 "q" = Js.Str s2 ->
  s1 <> EmptyString -> s2 <> EmptyString ->
  s1 <> "technik" -> s2 <> "technik" ->
  toLowerCase s1 = toLowerCase s2 ->
  Js.lookup query1 "priceMax" = Js.lookup query2 "priceMax" ->
  convertible query1 = convertible query2 ->
  exists r1 r2,
    fst (search toLowerCase toISOString query1 w) = Normal r1
    /\ fst (search toLowerCase toISOString query2 w) = Normal r2
    /\ observed r1 = observed r2.
Proof.
  intros Hq1 Hq2 He1 He2 Ht1 Ht2 Hlow Hp Hc.
  destruct (search_observed toLowerCase toISOString query1 w) as (r1 & H1 & O1).
  destruct (search_observed toLowerCase toISOString query2 w) as (r2 & H2 & O2).
  exists r1, r2. repeat split; auto.
  rewrite O1, O2, Hc, Hq1, Hq2,
    (pricedListings_ext toISOString query1 query2 w Hp).
  destruct (convertible query2); [| reflexivity].
  destruct (pricedListings toISOString query2 w); [| reflexivity].
  rewrite !observedAnswer_Str by assumption.
  unfold titleIncludes. now rewrite Hlow.
Qed.

Lemma search_title_case_insensitive_witness :
  exists r1 r2,
    fst (search Js.asciiLower Js.isoString [("q", Js.Str "IPHONE")] downWorld)
    = Normal r1
    /\ fst (search Js.asciiLower Js.isoString [("q", Js.Str "iPhone")] downWorld)
       = Normal r2
    /\ observed r1 = observed r2.
Proof.
  apply (search_title_case_insensitive Js.asciiLower Js.isoString
           [("q", Js.Str "IPHONE")] [("q", Js.Str "iPhone")] downWorld
           "IPHONE" "iPhone");
    try reflexivity; discriminate.
Defined.

Lemma mock_titles_without_technik toISOString w item :
  In item (mockListings toISOString w) ->
  Js.includes (Js.asciiLower (Listing.title item)) "technik" = false.
Proof.
  intros Hin.
  cbv [mockListings mockResults bind ret Date_now fst] in Hin.
  cbn [In] in Hin.
  repeat (destruct Hin as [<- | Hin]; [vm_compute; reflexivity |]).
  destruct Hin.
Qed.

(** X14: the comparison of [q] with the default word is case-sensitive
    although the title filter is not: when the conversions of the request
    succeed, a [q] that differs from ['technik'] only in case is used as a
    filter, matches no title, and the handler answers with the success
    body and no results (lower-casing of ASCII letters). *)
Theorem search_default_word_case_sensitive
    (toISOString : Z -> string)
    (query : list (string * Js.Value)) (w : World) (s : string) :
  convertible query = true ->
  Js.lookup query "q" = Js.Str s ->
  Js.asciiLower s = "technik" ->
  s <> "technik" ->
  fst (search Js.asciiLower toISOString query w) = Normal (searchOk query []).
Proof.
  intros Hconv Hq Hlow Hne.
  assert (Hs : s <> EmptyString) by (intros ->; discriminate Hlow).
  rewrite search_reply, Hconv.
  destruct (convertible_priced toISOString query w Hconv) as [priced Hp].
  rewrite Hp, (answerWith_Str Js.asciiLower query priced s Hq Hs Hne).
  do 2 f_equal. apply filter_none. intros item Hin.
  unfold titleIncludes. rewrite Hlow.
  apply mock_titles_without_technik with (toISOString := toISOString) (w := w).
  eapply sublist_In; [eapply pricedListings_sublist; exact Hp | exact Hin].
Qed.

Lemma search_default_word_case_sensitive_witness :
  fst (search Js.asciiLower Js.isoString [("q", Js.Str "Technik")] downWorld)
  = Normal (searchOk [("q", Js.Str "Technik")] []).
Proof.
  apply (search_default_word_case_sensitive Js.isoString
           [("q", Js.Str "Technik")] downWorld "Technik");
    [reflexivity | reflexivity | reflexivity | discriminate].
Defined.

(** X16: when the conversions of the request succeed, a falsy [q], as the
    empty string of [/search?q=], switches the title filter off: the
    handler answers with the success body and the listings the price
    filter left. *)
Theorem search_falsy_q_not_filtered
    (toLowerCase : string -> string) (toISOString : Z -> string)
    (query : list (string * Js.Value)) (w : World) :
  convertible query = true ->
  Js.truthy (Js.lookup query "q") = false ->
  exists priced,
    pricedListings toISOString query w = Some priced
    /\ fst (search toLowerCase toISOString query w)
       = Normal (searchOk query priced).
Proof.
  intros Hconv Hq.
  destruct (convertible_priced toISOString query w Hconv) as [priced Hp].
  exists priced. split; [exact Hp |].
  rewrite search_reply, Hconv, Hp. unfold answerWith.
  destruct (Js.lookup query "q"); cbn [Js.orDefault] in *;
    try discriminate Hq; try (rewrite Hq; reflexivity).
  reflexivity.
Qed.

Lemma search_falsy_q_not_filtered_witness :
  exists priced,
    pricedListings Js.isoString
      [("q", Js.Str EmptyString); ("priceMax", Js.Str "300")] downWorld
    = Some priced
    /\ fst (search Js.asciiLower Js.isoString
              [("q", Js.Str EmptyString); ("priceMax", Js.Str "300")] downWorld)
       = Normal (searchOk [("q", Js.Str EmptyString); ("priceMax", Js.Str "300")]
                   priced).
Proof.
  apply (search_falsy_q_not_filtered Js.asciiLower Js.isoString
           [("q", Js.Str EmptyString); ("priceMax", Js.Str "300")] downWorld);
    reflexivity.
Defined.

Lemma filter_map_undated (f : Listing.t -> bool) :
  (forall x y, undated x = undated y -> f x = f y) ->
  forall l1 l2,
    map undated l1 = map undated l2 ->
    map undated (filter f l1) = map undated (filter f l2).
Proof.
  intros Hf. induction l1 as [|x l1 IH]; intros [|y l2] Hmap;
    try discriminate Hmap; [reflexivity |].
  cbn [map] in Hmap.
  assert (Hxy : undated x = undated y /\ map undated l1 = map undated l2).
  { remember (undated x) as ux. remember (undated y) as uy.
    now injection Hmap. }
  destruct Hxy as [Hxy Hrest].
  cbn [filter]. rewrite (Hf x y Hxy).
  destruct (f y); cbn [map]; [f_equal; [assumption |] |]; now apply IH.
Qed.

Lemma undated_price x y : undated x = undated y -> Listing.price x = Listing.price y.
Proof. unfold undated. now intros [= _ _ H _ _ _]. Qed.

Lemma undated_title x y : undated x = undated y -> Listing.title x = Listing.title y.
Proof. unfold undated. now intros [= _ H _ _ _ _]. Qed.

Lemma pricedListings_undated toISOString query w1 w2 :
  option_map (map undated) (pricedListings toISOString query w1)
  = option_map (map undated) (pricedListings toISOString query w2).
Proof.
  unfold pricedListings. destruct (Js.truthy _); [| reflexivity].
  destruct (Js.toString _) as [s |]; [| reflexivity].
  cbn [option_map]. f_equal.
  apply filter_map_undated; [| reflexivity].
  intros x y Hxy. unfold withinPrice. now rewrite (undated_price x y Hxy).
Qed.

Lemma observedAnswer_undated toLowerCase qv priced1 priced2 :
  map undated priced1 = map undated priced2 ->
  fst (fst (observedAnswer toLowerCase qv priced1))
  = fst (fst (observedAnswer toLowerCase qv priced2))
  /\ snd (fst (observedAnswer toLowerCase qv priced1))
     = snd (fst (observedAnswer toLowerCase qv priced2))
  /\ option_map (map undated) (snd (observedAnswer toLowerCase qv priced1))
     = option_map (map undated) (snd (observedAnswer toLowerCase qv priced2)).
Proof.
  intros Hp.
  assert (Hok : forall rs1 rs2,
            map undated rs1 = map undated rs2 ->
            fst (fst (okObserved rs1)) = fst (fst (okObserved rs2))
            /\ snd (fst (okObserved rs1)) = snd (fst (okObserved rs2))
            /\ option_map (map undated) (snd (okObserved rs1))
               = option_map (map undated) (snd (okObserved rs2))).
  { intros rs1 rs2 Hmap. cbn. repeat split.
    - now rewrite <- (length_map undated rs1), Hmap, length_map.
    - now rewrite Hmap. }
  unfold observedAnswer. cbn zeta.
  destruct (_ && _); [| now apply Hok].
  destruct (Js.orDefault _ _) as [ | | b | n | s | items | fields | e].
  5: { apply Hok. apply filter_map_undated; [| assumption].
       intros x y Hxy. unfold titleIncludes.
       now rewrite (undated_title x y Hxy). }
  all: destruct priced1, priced2;
    try discriminate Hp; [now apply Hok | repeat split].
Qed.

(** X15: which listings [/search] returns does not depend on the state of
    the process: on any two worlds (clock, random source, transport,
    counters) the status and [count] are the same and the results agree in
    every field but [postedDate]. *)
Theorem search_listings_independent_of_world
    (toLowerCase : string -> string) (toISOString : Z -> string)
    (query : list (string * Js.Value)) (w1 w2 : World) :
  exists r1 r2,
    fst (search toLowerCase toISOString query w1) = Normal r1
    /\ fst (search toLowerCase toISOString query w2) = Normal r2
    /\ statusCode r1 = statusCode r2
    /\ bodyCount (body r1) = bodyCount (body r2)
    /\ option_map (map undated) (bodyResults (body r1))
       = option_map (map undated) (bodyResults (body r2)).
Proof.
  destruct (search_observed toLowerCase toISOString query w1) as (r1 & H1 & O1).
  destruct (search_observed toLowerCase toISOString query w2) as (r2 & H2 & O2).
  exists r1, r2. split; [assumption |]. split; [assumption |].
  change (statusCode r1) with (fst (fst (observed r1))).
  change (statusCode r2) with (fst (fst (observed r2))).
  change (bodyCount (body r1)) with (snd (fst (observed r1))).
  change (bodyCount (body r2)) with (snd (fst (observed r2))).
  rewrite !results_of_observed, O1, O2.
  destruct (convertible query); [| repeat split].
  pose proof (pricedListings_undated toISOString query w1 w2) as Hp.
  destruct (pricedListings toISOString query w1) as [priced1 |],
           (pricedListings toISOString query w2) as [priced2 |];
    try discriminate Hp; [| repeat split].
  cbn [option_map] in Hp. apply Some_eq in Hp.
  now apply observedAnswer_undated.
Qed.

(** ** What the retry helper leaves alone *)

(** X18: a call reads neither the clock nor the random source and keeps
    what was traced before it: it only appends its own events to the trace
    and advances the request counter. *)
Theorem makeRequest_frame (url : string) (retries : Z) (w : World) :
  let w' := after url retries w in
  clock w' = clock w /\ clockReads w' = clockReads w
  /\ random w' = random w /\ draws w' = draws w
  /\ network w' = network w
  /\ trace w' = (trace w ++ eventsSince w w')%list
  /\ requests w' = (requests w + requestsSince w w')%nat.
Proof.
  cbn zeta.
  destruct (makeRequest_shape url retries w)
    as [[Hn Hrun] | (errs & Hf & Hm & Hafter & Hout)].
  - unfold after. rewrite Hrun. cbn [snd].
    rewrite eventsSince_same, requestsSince_same, app_nil_r.
    repeat split; lia.
  - rewrite Hafter, eventsSince_advance, requestsSince_advance.
    repeat split.
Qed.

(** ** Runs of the handlers on inputs at the edges *)

(** [/search?locationName[toString]=x]: the conversion of [locationName]
    throws while the search parameters are built, and the handler sends
    its error body. *)
Example search_unconvertible_location :
  fst (search Js.asciiLower Js.isoString
         [("locationName", Js.Obj [("toString", Js.Str "x")])] downWorld)
  = Normal (searchFailed Js.cannotConvert).
Proof. vm_compute. reflexivity. Qed.

(** The same with a [q] that on its own returns nothing. *)
Example search_unconvertible_location_with_q :
  fst (search Js.asciiLower Js.isoString
         [("q", Js.Str "Technik");
          ("locationName", Js.Obj [("toString", Js.Str "x")])] downWorld)
  = Normal (searchFailed Js.cannotConvert).
Proof. vm_compute. reflexivity. Qed.

(** The price of [/ad/:id] at the draw 0.998, the double
    [4494592428115755 / 2^52]: the product with 1000 rounds to 998, where
    the exact product lies below it. *)
Example ad_price_at_0_998 :
  exists details,
    fst (ad Js.isoString "1" (drawWorld (4494592428115755 # 4503599627370496)))
    = Normal {| statusCode := 200; body := AdBody true details |}
    /\ Ad.price details = "€ 1098"
    /\ Qfloor ((4494592428115755 # 4503599627370496) * 1000) = 997.
Proof. eexists. split; [vm_compute; reflexivity |]. split; reflexivity. Qed.

(** ** More on [/ad/:id] *)





